(** * jax-cfd time stepping: a shallow embedding and its properties

    Embeds [jax_cfd/base/time_stepping.py], [jax_cfd/spectral/time_stepping.py]
    and [jax_cfd/spectral/equations.py].

    Modelling conventions.
    - Python floats (and complex floats) are elements of an abstract field
      [K] with decidable equality (class [Scalar]); rounding, infinities and
      NaN are outside the model.  [Qc] is the instance used for concrete
      evaluation.
    - A numeric array is a [list K] (its entries in row-major order).
    - A pytree is a leaf array or a container of named children.
    - Python exceptions are the [Raise] results of the [result] monad.
    - The functions of an equation object are total functions on pytrees. *)

From Stdlib Require Import ZArith Lia Bool String Field QArith Qcanon List.
From Stdlib Require Import Permutation.
Import ListNotations.

Local Open Scope nat_scope.

Set Implicit Arguments.
Set Warnings "-register-all".

(** ** Exceptions *)

Inductive exn : Type :=
| ValueError
| IndexError
| TypeError
| AttributeError.

Inductive result (A : Type) : Type :=
| Ok (a : A)
| Raise (e : exn).

Arguments Ok {A} a.
Arguments Raise {A} e.

Definition bind {A B : Type} (m : result A) (f : A -> result B) : result B :=
  match m with
  | Ok a => f a
  | Raise e => Raise e
  end.

Notation "x <- m ;; k" := (bind m (fun x => k))
  (at level 61, m at next level, right associativity).

Definition is_ok {A : Type} (m : result A) : bool :=
  match m with Ok _ => true | Raise _ => false end.

(** [m] returns a value satisfying [Q]. *)
Definition returns {A : Type} (Q : A -> Prop) (m : result A) : Prop :=
  exists a, m = Ok a /\ Q a.

(** If [m] returns a value, the value satisfies [Q]. *)
Definition ok_then {A : Type} (Q : A -> Prop) (m : result A) : Prop :=
  match m with
  | Ok a => Q a
  | Raise _ => True
  end.

(** [xs[i]] for a non-negative index. *)
Definition getitem {A : Type} (xs : list A) (i : nat) : result A :=
  match nth_error xs i with
  | Some x => Ok x
  | None => Raise IndexError
  end.

(** [xs[i] = v] on a list of fixed length. *)
Fixpoint setitem {A : Type} (xs : list A) (i : nat) (v : A) : result (list A) :=
  match xs, i with
  | [], _ => Raise IndexError
  | _ :: tl, O => Ok (v :: tl)
  | x :: tl, S j => tl' <- setitem tl j v ;; Ok (x :: tl')
  end.

(** ** Scalars *)

(** The number [p] as [1 + ... + 1], by binary expansion. *)
Fixpoint pos_inj {K : Type} (one : K) (add : K -> K -> K) (p : positive) : K :=
  match p with
  | xH => one
  | xO q => add (pos_inj one add q) (pos_inj one add q)
  | xI q => add one (add (pos_inj one add q) (pos_inj one add q))
  end.

Class Scalar (K : Type) : Type := {
  K0 : K;
  K1 : K;
  Kadd : K -> K -> K;
  Kmul : K -> K -> K;
  Ksub : K -> K -> K;
  Kopp : K -> K;
  Kdiv : K -> K -> K;
  Kinv : K -> K;
  Keqb : K -> K -> bool;
  K_field : field_theory K0 K1 Kadd Kmul Ksub Kopp Kdiv Kinv eq;
  Keqb_eq : forall x y, Keqb x y = true <-> x = y;
  K_char0 : forall p, pos_inj K1 Kadd p <> K0
}.

(** The rationals in canonical form, the scalars of concrete evaluation. *)
#[export,refine] Instance Qc_Scalar : Scalar Qc := {
  K0 := 0%Qc;
  K1 := 1%Qc;
  Kadd := Qcplus;
  Kmul := Qcmult;
  Ksub := Qcminus;
  Kopp := Qcopp;
  Kdiv := Qcdiv;
  Kinv := Qcinv;
  Keqb := fun x y => Qeq_bool x y;
  K_field := Qcft
}.
Proof.
  - intros x y. rewrite Qeq_bool_iff. split.
    + apply Qc_is_canon.
    + intros ->. reflexivity.
  - assert (plus_this : forall x y : Qc,
               (this (x + y)%Qc == this x + this y)%Q).
    { intros x y. unfold Qcplus, Q2Qc. cbn [this]. apply Qred_correct. }
    assert (inj : forall p, (pos_inj 1%Qc Qcplus p == inject_Z (Zpos p))%Q).
    { induction p as [q IH|q IH|]; cbn [pos_inj].
      - rewrite !plus_this, IH. change (this 1%Qc) with (inject_Z 1).
        rewrite <- !inject_Z_plus. apply inject_Z_injective. lia.
      - rewrite !plus_this, IH.
        rewrite <- !inject_Z_plus. apply inject_Z_injective. lia.
      - reflexivity. }
    intros p H. pose proof (inj p) as E. rewrite H in E.
    unfold Qeq, inject_Z in E. simpl in E. lia.
Defined.

Declare Scope K_scope.
Delimit Scope K_scope with K.
Infix "+" := Kadd : K_scope.
Infix "*" := Kmul : K_scope.
Infix "-" := Ksub : K_scope.
Infix "/" := Kdiv : K_scope.
Notation "- x" := (Kopp x) : K_scope.
Notation "0" := K0 : K_scope.
Notation "1" := K1 : K_scope.

(** Python truthiness of a number: [if c]. *)
Definition truthy {K : Type} {SK : Scalar K} (c : K) : bool := negb (Keqb c K0).

(** The literal [0.5]. *)
Definition half {K : Type} {SK : Scalar K} : K := (1 / (1 + 1))%K.

(** ** Arrays and pytrees *)

Section Trees.
Context {K : Type} {SK : Scalar K}.

Definition array : Type := list K.

Unset Elimination Schemes.

Inductive pytree : Type :=
| Leaf (x : array)
| Node (fields : list (string * pytree)).

(** The structure of a pytree: container names in order, and leaf shapes. *)
Inductive treedef : Type :=
| LeafDef (n : nat)
| NodeDef (fields : list (string * treedef)).

Set Elimination Schemes.

Fixpoint structure (t : pytree) : treedef :=
  match t with
  | Leaf x => LeafDef (List.length x)
  | Node fs => NodeDef (map (fun p => (fst p, structure (snd p))) fs)
  end.

(** [jax.tree_util.tree_map(f, t)]. *)
Fixpoint tree_map (f : array -> array) (t : pytree) : pytree :=
  match t with
  | Leaf x => Leaf (f x)
  | Node fs => Node (map (fun p => (fst p, tree_map f (snd p))) fs)
  end.

(** [jax.tree_util.tree_map(f, t1, t2)]: the trees must have the same
    containers; a mismatch is a [ValueError].  (A leaf of [t1] facing a
    container of [t2] is counted as a mismatch.) *)
Fixpoint tree_map2 (f : array -> array -> result array) (t1 t2 : pytree)
  : result pytree :=
  match t1, t2 with
  | Leaf x, Leaf y => z <- f x y ;; Ok (Leaf z)
  | Node fs, Node gs =>
      r <- (fix go (fs : list (string * pytree)) (gs : list (string * pytree))
              : result (list (string * pytree)) :=
              match fs, gs with
              | [], [] => Ok []
              | (n, c) :: fs', (m, d) :: gs' =>
                  if String.eqb n m
                  then c' <- tree_map2 f c d ;;
                       r <- go fs' gs' ;;
                       Ok ((n, c') :: r)
                  else Raise ValueError
              | _, _ => Raise ValueError
              end) fs gs ;;
      Ok (Node r)
  | _, _ => Raise ValueError
  end.

(** Elementwise array arithmetic with a scalar: [x + c], [x * c]. *)
Definition arr_add_scalar (x : array) (c : K) : array :=
  map (fun v => (v + c)%K) x.

Definition arr_mul_scalar (x : array) (c : K) : array :=
  map (fun v => (v * c)%K) x.

Fixpoint zip_with (op : K -> K -> K) (x y : array) : array :=
  match x, y with
  | a :: x', b :: y' => op a b :: zip_with op x' y'
  | _, _ => []
  end.

(** Elementwise arithmetic of two one-dimensional arrays, with numpy
    broadcasting of a length-one operand; other length mismatches raise. *)
Definition arr_binop (op : K -> K -> K) (x y : array) : result array :=
  if Nat.eqb (List.length x) (List.length y) then Ok (zip_with op x y)
  else match x, y with
       | [a], _ => Ok (map (fun v => op a v) y)
       | _, [b] => Ok (map (fun v => op v b) x)
       | _, _ => Raise ValueError
       end.

Definition arr_add : array -> array -> result array := arr_binop Kadd.
Definition arr_mul : array -> array -> result array := arr_binop Kmul.

End Trees.

Arguments array K : clear implicits.
Arguments pytree K : clear implicits.

(** ** Loops and generators *)

(** [for x in xs: s = body(x, s)], stopping at the first exception. *)
Fixpoint for_each {S A : Type} (xs : list A) (body : A -> S -> result S)
  (s : S) : result S :=
  match xs with
  | [] => Ok s
  | x :: xs' => s' <- body x s ;; for_each xs' body s'
  end.

(** A generator expression [(e(j) for j in js if c(j))] run to exhaustion:
    [f j] is [Ok None] when the condition filters [j] out. *)
Fixpoint genexp {A B : Type} (js : list A) (f : A -> result (option B))
  : result (list B) :=
  match js with
  | [] => Ok []
  | j :: js' =>
      o <- f j ;;
      rest <- genexp js' f ;;
      Ok (match o with Some v => v :: rest | None => rest end)
  end.

(** [range(n)] and [range(lo, hi)]. *)
Definition range (n : nat) : list nat := seq 0 n.
Definition range2 (lo hi : nat) : list nat := seq lo (hi - lo).

(** ** spectral/time_stepping.py: the infix arithmetic wrapper *)

Section Infix.
Context {K : Type} {SK : Scalar K}.

(** The values a step function computes with: a Python number, or an
    [_InfixArithmeticWrapper] holding a pytree. *)
Inductive val : Type :=
| VNum (c : K)
| VWrap (pytree : pytree K).

(** [_InfixArithmeticWrapper.__add__(self, other)]. *)
Definition wrapper_add (self : pytree K) (other : val) : result val :=
  match other with
  | VWrap o => r <- tree_map2 arr_add self o ;; Ok (VWrap r)
  | VNum c => Ok (VWrap (tree_map (fun x => arr_add_scalar x c) self))
  end.

(** [_InfixArithmeticWrapper.__mul__(self, other)]. *)
Definition wrapper_mul (self : pytree K) (other : val) : result val :=
  match other with
  | VWrap o => r <- tree_map2 arr_mul self o ;; Ok (VWrap r)
  | VNum c => Ok (VWrap (tree_map (fun x => arr_mul_scalar x c) self))
  end.

(** Python's [a + b]: numbers add; a wrapper on the left uses [__add__], a
    number on the left of a wrapper falls to [__radd__ = __add__]. *)
Definition py_add (a b : val) : result val :=
  match a, b with
  | VNum x, VNum y => Ok (VNum (x + y)%K)
  | VWrap s, _ => wrapper_add s b
  | VNum _, VWrap s => wrapper_add s a
  end.

(** Python's [a * b], with [__rmul__ = __mul__]. *)
Definition py_mul (a b : val) : result val :=
  match a, b with
  | VNum x, VNum y => Ok (VNum (x * y)%K)
  | VWrap s, _ => wrapper_mul s b
  | VNum _, VWrap s => wrapper_mul s a
  end.

(** The attribute access [v.pytree]. *)
Definition get_pytree (v : val) : result (pytree K) :=
  match v with
  | VWrap t => Ok t
  | VNum _ => Raise AttributeError
  end.

Definition _pytree_to_infix (func : val -> result val) (state : pytree K)
  : result (pytree K) :=
  r <- func (VWrap state) ;; get_pytree r.

(** [_infix_to_pytree(func)] called with no auxiliary argument. *)
Definition _infix_to_pytree (func : pytree K -> pytree K) (state : val)
  : result val :=
  t <- get_pytree state ;; Ok (VWrap (func t)).

(** [_infix_to_pytree(func)] called with one auxiliary argument. *)
Definition _infix_to_pytree_aux (func : pytree K -> K -> pytree K)
  (state : val) (aux : K) : result val :=
  t <- get_pytree state ;; Ok (VWrap (func t aux)).

(** ** spectral/time_stepping.py: implicit-explicit steppers *)

Record ImplicitExplicitODE : Type := {
  explicit_terms : pytree K -> pytree K;
  implicit_terms : pytree K -> pytree K;
  implicit_solve : pytree K -> K -> pytree K
}.

Definition TimeStepFn : Type := pytree K -> result (pytree K).

Definition backward_forward_euler (equation : ImplicitExplicitODE)
  (time_step : K) : TimeStepFn :=
  let dt := time_step in
  let F := _infix_to_pytree (explicit_terms equation) in
  let G_inv := _infix_to_pytree_aux (implicit_solve equation) in
  _pytree_to_infix (fun u0 =>
    Fu0 <- F u0 ;;
    dtF <- py_mul (VNum dt) Fu0 ;;
    g <- py_add u0 dtF ;;
    u1 <- G_inv g dt ;;
    Ok u1).

Definition crank_nicolson_rk2 (equation : ImplicitExplicitODE)
  (time_step : K) : TimeStepFn :=
  let dt := time_step in
  let F := _infix_to_pytree (explicit_terms equation) in
  let G := _infix_to_pytree (implicit_terms equation) in
  let G_inv := _infix_to_pytree_aux (implicit_solve equation) in
  _pytree_to_infix (fun u0 =>
    Gu0 <- G u0 ;;
    hG <- py_mul (VNum (half * dt)%K) Gu0 ;;
    g <- py_add u0 hG ;;
    h1 <- F u0 ;;
    dth1 <- py_mul (VNum dt) h1 ;;
    s1 <- py_add g dth1 ;;
    u1 <- G_inv s1 (half * dt)%K ;;
    Fu1 <- F u1 ;;
    f1 <- py_add Fu1 h1 ;;
    h2 <- py_mul (VNum half) f1 ;;
    dth2 <- py_mul (VNum dt) h2 ;;
    s2 <- py_add g dth2 ;;
    u2 <- G_inv s2 (half * dt)%K ;;
    Ok u2).

(** The construction-time test
    [len(alphas) - 1 != len(betas) != len(gammas)], a chained comparison:
    [len(alphas) - 1 != len(betas) and len(betas) != len(gammas)]. *)
Definition rk_coefficients_rejected (alphas betas gammas : list K) : bool :=
  negb (Z.eqb (Z.of_nat (List.length alphas) - 1) (Z.of_nat (List.length betas)))
  && negb (Nat.eqb (List.length betas) (List.length gammas)).

(** One pass of the loop body of [step_fn], on the pair [(h, u)]. *)
Definition low_storage_stage (alphas betas gammas : list K)
  (equation : ImplicitExplicitODE) (dt : K) (k : nat) (hu : val * val)
  : result (val * val) :=
  let F := _infix_to_pytree (explicit_terms equation) in
  let G := _infix_to_pytree (implicit_terms equation) in
  let G_inv := _infix_to_pytree_aux (implicit_solve equation) in
  let '(h, u) := hu in
  Fu <- F u ;;
  bk <- getitem betas k ;;
  bh <- py_mul (VNum bk) h ;;
  h <- py_add Fu bh ;;
  a1 <- getitem alphas (k + 1) ;;
  a0 <- getitem alphas k ;;
  let mu := (half * dt * (a1 - a0))%K in
  gk <- getitem gammas k ;;
  gh <- py_mul (VNum (gk * dt)%K) h ;;
  s <- py_add u gh ;;
  Gu <- G u ;;
  mG <- py_mul (VNum mu) Gu ;;
  s <- py_add s mG ;;
  u <- G_inv s mu ;;
  Ok (h, u).

Definition low_storage_step_fn (alphas betas gammas : list K)
  (equation : ImplicitExplicitODE) (dt : K) : TimeStepFn :=
  _pytree_to_infix (fun u =>
    let h := VNum 0%K in
    hu <- for_each (range (List.length betas))
            (low_storage_stage alphas betas gammas equation dt) (h, u) ;;
    Ok (snd hu)).

Definition low_storage_runge_kutta_crank_nicolson
  (alphas betas gammas : list K) (equation : ImplicitExplicitODE)
  (time_step : K) : result TimeStepFn :=
  let dt := time_step in
  if rk_coefficients_rejected alphas betas gammas
  then Raise ValueError
  else Ok (low_storage_step_fn alphas betas gammas equation dt).

(** Decimal and fraction literals. *)
Definition Kpos (p : positive) : K := pos_inj K1 Kadd p.

Definition KofZ (z : Z) : K :=
  match z with
  | Z0 => 0%K
  | Zpos p => Kpos p
  | Zneg p => (- Kpos p)%K
  end.

Definition frac (n : Z) (d : positive) : K := (KofZ n / Kpos d)%K.

Definition crank_nicolson_rk3 (equation : ImplicitExplicitODE)
  (time_step : K) : result TimeStepFn :=
  low_storage_runge_kutta_crank_nicolson
    [0%K; frac 1 3; frac 3 4; 1%K]
    [0%K; frac (-5) 9; frac (-153) 128]
    [frac 1 3; frac 15 16; frac 8 15]
    equation time_step.

Definition crank_nicolson_rk4 (equation : ImplicitExplicitODE)
  (time_step : K) : result TimeStepFn :=
  low_storage_runge_kutta_crank_nicolson
    [0%K; frac 1496590219993 10000000000000; frac 3704009573644 10000000000000;
     frac 6222557631345 10000000000000; frac 9582821306748 10000000000000; 1%K]
    [0%K; frac (-4178904745) 10000000000; frac (-1192151694643) 1000000000000;
     frac (-1697784692471) 1000000000000; frac (-1514183444257) 1000000000000]
    [frac 1496590219993 10000000000000; frac 3792103129999 10000000000000;
     frac 8229550293869 10000000000000; frac 6994504559488 10000000000000;
     frac 1530572479681 10000000000000]
    equation time_step.

End Infix.

Arguments val K : clear implicits.
Arguments ImplicitExplicitODE K : clear implicits.
Arguments TimeStepFn K : clear implicits.

(** ** base/tree_math *)

Module tree_math.
Section TreeMath.
Context {K : Type} {SK : Scalar K}.

(** Modelled from the spec: the module [jax_cfd.base.tree_math] is not among
    the sources.  Following the adapter contract (a wrapped structure adds
    elementwise to a wrapped structure of identical shape, and is multiplied
    by a scalar leaf by leaf), a Vector is a wrapped pytree [VWrap t] with
    the arithmetic of [py_add] and [py_mul]; [pytree_to_vector_fun f] lets
    [f] act on the wrapped pytree. *)
Definition pytree_to_vector_fun (func : pytree K -> pytree K) (v : val K)
  : result (val K) :=
  t <- get_pytree v ;; Ok (VWrap (func t)).

(** Modelled from the spec: the module [jax_cfd.base.tree_math] is not among
    the sources.  [vector_to_pytree_fun f] wraps its pytree argument, calls
    [f] and unwraps the result ([unwrap (wrap s) = s]). *)
Definition vector_to_pytree_fun (func : val K -> result (val K))
  (state : pytree K) : result (pytree K) :=
  r <- func (VWrap state) ;; get_pytree r.

End TreeMath.
End tree_math.

(** ** base/time_stepping.py: explicit Runge-Kutta steppers *)

Section Explicit.
Context {K : Type} {SK : Scalar K}.

(** [ExplicitNavierStokesODE]; the field [rhs_explicit_terms] is the
    attribute [explicit_terms], renamed apart from the field of
    [ImplicitExplicitODE]. *)
Record ExplicitNavierStokesODE : Type := {
  rhs_explicit_terms : pytree K -> pytree K;
  pressure_projection : pytree K -> pytree K
}.

(** [_sum(xs)]: [result, *xs = xs] raises on an empty sequence. *)
Definition _sum (xs : list (val K)) : result (val K) :=
  match xs with
  | [] => Raise ValueError
  | result :: xs' => for_each xs' (fun x result => py_add result x) result
  end.

(** Reading a slot of the stage lists [u] and [k], which start as
    [[None] * num_steps]; arithmetic on [None] is a [TypeError]. *)
Definition stage_value (slots : list (option (val K))) (j : nat)
  : result (val K) :=
  o <- getitem slots j ;;
  match o with
  | Some v => Ok v
  | None => Raise TypeError
  end.

(** The generator [(c[j] * k[j] for j in range(n) if c[j])], where the
    coefficient vector [c] is itself the result of an expression. *)
Definition weighted_terms (c : result (list K)) (k : list (option (val K)))
  (n : nat) : result (list (val K)) :=
  genexp (range n) (fun j =>
    row <- c ;;
    cj <- getitem row j ;;
    if truthy cj
    then kj <- stage_value k j ;;
         t <- py_mul (VNum cj) kj ;;
         Ok (Some t)
    else Ok None).

(** The body of the stage loop of [step_fn], on the pair of lists [(u, k)]. *)
Definition rk_stage (a : list (list K)) (F P : val K -> result (val K))
  (dt : K) (u0 : val K) (i : nat)
  (uk : list (option (val K)) * list (option (val K)))
  : result (list (option (val K)) * list (option (val K))) :=
  let '(u, k) := uk in
  terms <- weighted_terms (getitem a (i - 1)) k i ;;
  s <- _sum terms ;;
  ds <- py_mul (VNum dt) s ;;
  u_star <- py_add u0 ds ;;
  ui <- P u_star ;;
  u <- setitem u i (Some ui) ;;
  ui <- stage_value u i ;;
  ki <- F ui ;;
  k <- setitem k i (Some ki) ;;
  Ok (u, k).

Definition rk_step_fn (a : list (list K)) (b : list K)
  (equation : ExplicitNavierStokesODE) (dt : K) : TimeStepFn K :=
  let F := tree_math.pytree_to_vector_fun (rhs_explicit_terms equation) in
  let P := tree_math.pytree_to_vector_fun (pressure_projection equation) in
  let num_steps := List.length b in
  tree_math.vector_to_pytree_fun (fun u0 =>
    let u := repeat None num_steps in
    let k := repeat None num_steps in
    u <- setitem u 0 (Some u0) ;;
    k0 <- F u0 ;;
    k <- setitem k 0 (Some k0) ;;
    uk <- for_each (range2 1 num_steps) (rk_stage a F P dt u0) (u, k) ;;
    terms <- weighted_terms (Ok b) (snd uk) num_steps ;;
    s <- _sum terms ;;
    ds <- py_mul (VNum dt) s ;;
    u_star <- py_add u0 ds ;;
    u_final <- P u_star ;;
    Ok u_final).

Definition navier_stokes_rk (a : list (list K)) (b : list K)
  (equation : ExplicitNavierStokesODE) (time_step : K)
  : result (TimeStepFn K) :=
  let dt := time_step in
  if negb (Nat.eqb (List.length a + 1) (List.length b))
  then Raise ValueError
  else Ok (rk_step_fn a b equation dt).

(** The presets; [jax.named_call] only names the function it is given. *)
Definition forward_euler (equation : ExplicitNavierStokesODE) (time_step : K)
  : result (TimeStepFn K) :=
  navier_stokes_rk [] [1%K] equation time_step.

Definition midpoint_rk2 (equation : ExplicitNavierStokesODE) (time_step : K)
  : result (TimeStepFn K) :=
  navier_stokes_rk [[frac 1 2]] [0%K; 1%K] equation time_step.

Definition heun_rk2 (equation : ExplicitNavierStokesODE) (time_step : K)
  : result (TimeStepFn K) :=
  navier_stokes_rk [[1%K]] [frac 1 2; frac 1 2] equation time_step.

Definition classic_rk4 (equation : ExplicitNavierStokesODE) (time_step : K)
  : result (TimeStepFn K) :=
  navier_stokes_rk
    [[frac 1 2]; [0%K; frac 1 2]; [0%K; 0%K; 1%K]]
    [frac 1 6; frac 1 3; frac 1 3; frac 1 6]
    equation time_step.

End Explicit.

Arguments ExplicitNavierStokesODE K : clear implicits.

(** ** spectral/equations.py: the two-dimensional Navier-Stokes equation *)

Section Equations.
Context {K : Type} {SK : Scalar K}.

(** The collaborators of [NavierStokes2D] that live outside these sources:
    the grid with its wavenumber mesh, the helpers of [spectral.utils], the
    real FFT pair and the constants [pi] and [2j]. *)
Variable Grid : Type.
Variable rfft_mesh : Grid -> array K * array K.
Variable circular_filter_2d : Grid -> array K.
Variable vorticity_to_velocity : Grid -> array K -> array K * array K.
Variable irfftn : array K -> array K.
Variable rfftn : array K -> array K.
Variable pi : K.
Variable two_j : K.

Definition ForcingFn : Type := Grid -> array K -> array K.

(** The dataclass fields.  [smooth] is declared [bool] but is tested
    against [None], so it ranges over [None], [True] and [False]. *)
Record NavierStokes2D : Type := {
  viscosity : K;
  grid : Grid;
  drag : K;
  smooth : option bool;
  forcing_fn : option ForcingFn
}.

(** Elementwise operations on arrays of the shape of the grid's mesh. *)
Definition scale (c : K) (x : array K) : array K := map (fun v => (c * v)%K) x.
Definition times (x y : array K) : array K := zip_with Kmul x y.
Definition plus (x y : array K) : array K := zip_with Kadd x y.
Definition negate (x : array K) : array K := map Kopp x.
Definition square (x : array K) : array K := map (fun v => (v * v)%K) x.

(** The attributes set by [__post_init__]. *)
Definition kx (self : NavierStokes2D) : array K := fst (rfft_mesh (grid self)).
Definition ky (self : NavierStokes2D) : array K := snd (rfft_mesh (grid self)).

Definition laplace (self : NavierStokes2D) : array K :=
  scale ((pi * two_j) * (pi * two_j))%K (plus (square (kx self)) (square (ky self))).

Definition filter_ (self : NavierStokes2D) : array K :=
  circular_filter_2d (grid self).

Definition linear_term (self : NavierStokes2D) : array K :=
  map (fun l => (viscosity self * l - drag self)%K) (laplace self).

(** Lines 55-64 of [explicit_terms]: the nonlinear term before filtering. *)
Definition advection_hat (self : NavierStokes2D) (vorticity_hat : array K)
  : array K :=
  let velocity_solve := vorticity_to_velocity (grid self) in
  let '(vxhat, vyhat) := velocity_solve vorticity_hat in
  let vx := irfftn vxhat in
  let vy := irfftn vyhat in
  let grad_x_hat := times (scale (two_j * pi)%K (kx self)) vorticity_hat in
  let grad_y_hat := times (scale (two_j * pi)%K (ky self)) vorticity_hat in
  let grad_x := irfftn grad_x_hat in
  let grad_y := irfftn grad_y_hat in
  let advection := negate (plus (times grad_x vx) (times grad_y vy)) in
  rfftn advection.

Definition NS_explicit_terms (self : NavierStokes2D) (vorticity_hat : array K)
  : array K :=
  let advection_hat := advection_hat self vorticity_hat in
  let advection_hat :=
    match smooth self with
    | Some _ => times advection_hat (filter_ self)
    | None => advection_hat
    end in
  let terms := advection_hat in
  match forcing_fn self with
  | Some f => plus terms (rfftn (f (grid self) vorticity_hat))
  | None => terms
  end.

Definition NS_implicit_terms (self : NavierStokes2D) (vorticity_hat : array K)
  : array K :=
  times (linear_term self) vorticity_hat.

Definition NS_implicit_solve (self : NavierStokes2D) (vorticity_hat : array K)
  (time_step : K) : array K :=
  times
    (map (fun d => (1 / d)%K)
       (map (fun l => (1 - l)%K) (scale time_step (linear_term self))))
    vorticity_hat.

(** [x - h * y] on arrays, the left side of the backward equation. *)
Definition backward_lhs (y : array K) (h : K) (gy : array K) : array K :=
  zip_with Ksub y (scale h gy).

End Equations.

(** ** The stage formulas of the explicit family, as the specification
       writes them *)

Section Specification.
Context {K : Type} {SK : Scalar K}.

(** The additive identity of the shape of [t]. *)
Definition zeros_like (t : pytree K) : pytree K :=
  tree_map (map (fun _ => 0%K)) t.

(** Vector-space operations on states of one shape. *)
Fixpoint tree_zip (op : K -> K -> K) (s t : pytree K) : pytree K :=
  match s, t with
  | Leaf x, Leaf y => Leaf (zip_with op x y)
  | Node fs, Node gs =>
      Node ((fix go (fs gs : list (string * pytree K)) : list (string * pytree K) :=
               match fs, gs with
               | (n, c) :: fs', (_, d) :: gs' => (n, tree_zip op c d) :: go fs' gs'
               | _, _ => []
               end) fs gs)
  | _, _ => s
  end.

Definition vadd (s t : pytree K) : pytree K := tree_zip Kadd s t.
Definition smul (c : K) (t : pytree K) : pytree K := tree_map (map (Kmul c)) t.

(** Specification: [sum_j c[j] * k[j]], taken over the nonzero [c[j]]. *)
Definition weighted_sum (zero : pytree K) (c : list K) (ks : list (pytree K))
  : pytree K :=
  fold_left vadd
    (map (fun p => smul (fst p) (snd p))
       (filter (fun p => truthy (fst p)) (combine c ks)))
    zero.

(** Specification: the stage derivatives [k[0], ..., k[i]], with
    [k[0] = F(u0)] and, for [i >= 1],
    [u_star = u0 + dt * sum_{j<i} a[i-1][j] * k[j]], [u[i] = P(u_star)],
    [k[i] = F(u[i])]. *)
Fixpoint rk_stage_derivatives (a : list (list K)) (F P : pytree K -> pytree K)
  (dt : K) (u0 : pytree K) (i : nat) : list (pytree K) :=
  match i with
  | O => [F u0]
  | S m =>
      let ks := rk_stage_derivatives a F P dt u0 m in
      let u_star :=
        vadd u0 (smul dt (weighted_sum (zeros_like u0) (nth m a []) ks)) in
      ks ++ [F (P u_star)]
  end.

(** Specification: the value returned,
    [P(u0 + dt * sum_j b[j] * k[j])]. *)
Definition rk_formula (a : list (list K)) (b : list K)
  (equation : ExplicitNavierStokesODE K) (dt : K) (u0 : pytree K) : pytree K :=
  let F := rhs_explicit_terms equation in
  let P := pressure_projection equation in
  let ks := rk_stage_derivatives a F P dt u0 (List.length b - 1) in
  P (vadd u0 (smul dt (weighted_sum (zeros_like u0) b ks))).

(** Every stage has the coefficients it reads, one of them nonzero. *)
Fixpoint rows_usable (i : nat) (a : list (list K)) : bool :=
  match a with
  | [] => true
  | row :: a' =>
      (i <=? List.length row) && existsb truthy (firstn i row)
      && rows_usable (S i) a'
  end.

Definition tableau_usable (a : list (list K)) (b : list K) : bool :=
  rows_usable 1 a && existsb truthy b.

(** The length invariant of the low-storage coefficients. *)
Definition rk_coefficients_consistent (alphas betas gammas : list K) : bool :=
  Z.eqb (Z.of_nat (List.length alphas) - 1) (Z.of_nat (List.length betas))
  && Nat.eqb (List.length betas) (List.length gammas).

(** The products [c[j] * k[j]] of a weighted sum, nonzero [c[j]] only. *)
Definition terms_of (c : list K) (ks : list (pytree K)) : list (pytree K) :=
  map (fun p => smul (fst p) (snd p))
    (filter (fun p => truthy (fst p)) (combine c ks)).

(** The list [k] of [step_fn] once stages [0..m] of [n] are computed. *)
Definition k_state (a : list (list K)) (F P : pytree K -> pytree K) (dt : K)
  (u0 : pytree K) (n m : nat) : list (option (val K)) :=
  map (fun t => Some (VWrap t)) (rk_stage_derivatives a F P dt u0 m)
  ++ repeat None (n - S m).

Definition preserves_structure (f : pytree K -> pytree K) : Prop :=
  forall x, structure (f x) = structure x.

Definition explicit_preserves_structure
  (equation : ExplicitNavierStokesODE K) : Prop :=
  preserves_structure (rhs_explicit_terms equation)
  /\ preserves_structure (pressure_projection equation).

Definition imex_preserves_structure (equation : ImplicitExplicitODE K) : Prop :=
  preserves_structure (explicit_terms equation)
  /\ preserves_structure (implicit_terms equation)
  /\ forall h, preserves_structure (fun x => implicit_solve equation x h).

(** A wrapped state of structure [d]. *)
Definition wrapped_like (d : treedef) (v : val K) : Prop :=
  match v with
  | VWrap t => structure t = d
  | VNum _ => False
  end.

(** The running term [h]: the scalar seed, or a wrapped state. *)
Definition seed_or_wrapped (d : treedef) (v : val K) : Prop :=
  match v with
  | VWrap t => structure t = d
  | VNum _ => True
  end.

(** A slot of the stage lists: still [None], or a wrapped state. *)
Definition slot_like (d : treedef) (o : option (val K)) : Prop :=
  match o with
  | Some v => wrapped_like d v
  | None => True
  end.

(** Equations with no dynamics. *)
Definition explicit_zero_dynamics (equation : ExplicitNavierStokesODE K) : Prop :=
  (forall x, rhs_explicit_terms equation x = zeros_like x)
  /\ (forall x, pressure_projection equation x = x).

Definition imex_zero_dynamics (equation : ImplicitExplicitODE K) : Prop :=
  (forall x, explicit_terms equation x = zeros_like x)
  /\ (forall x, implicit_terms equation x = zeros_like x)
  /\ (forall x h, implicit_solve equation x h = x).

End Specification.

(** ** Sample equations and states *)

Section Samples.
Context {K : Type} {SK : Scalar K}.

(** [dx/dt = x] with no constraint. *)
Definition growth_equation : ExplicitNavierStokesODE K :=
  {| rhs_explicit_terms := fun x => x; pressure_projection := fun x => x |}.

(** No dynamics, explicit family. *)
Definition still_equation : ExplicitNavierStokesODE K :=
  {| rhs_explicit_terms := zeros_like; pressure_projection := fun x => x |}.

(** No dynamics, implicit-explicit family. *)
Definition still_imex : ImplicitExplicitODE K :=
  {| explicit_terms := zeros_like;
     implicit_terms := zeros_like;
     implicit_solve := fun x _ => x |}.

(** The strictly linear equation [dx/dt = lam * x], all of it implicit. *)
Definition linear_equation (lam : K) : ImplicitExplicitODE K :=
  {| explicit_terms := zeros_like;
     implicit_terms := smul lam;
     implicit_solve := fun x h => tree_map (map (fun v => v / (1 - h * lam))%K) x |}.

(** [dx/dt = x + x], split evenly, with a trivial solve. *)
Definition split_equation : ImplicitExplicitODE K :=
  {| explicit_terms := fun x => x;
     implicit_terms := fun x => x;
     implicit_solve := fun x _ => x |}.

(** A state with two named fields. *)
Definition two_fields (x y : array K) : pytree K :=
  Node [("u"%string, Leaf x); ("v"%string, Leaf y)].

(** A one-mode grid for [NavierStokes2D]: wavenumbers [1], a filter that
    removes the mode, and identity transforms. *)
Definition one_mode (smooth : option bool) : NavierStokes2D (K:=K) unit :=
  {| viscosity := 1%K; grid := tt; drag := 0%K; smooth := smooth;
     forcing_fn := None |}.

Definition one_mode_mesh (_ : unit) : array K * array K := ([1%K], [1%K]).
Definition one_mode_filter (_ : unit) : array K := [0%K].
Definition one_mode_velocity (_ : unit) (w : array K) : array K * array K := (w, w).
Definition no_transform (x : array K) : array K := x.

End Samples.

(** ** Closed forms of the steppers *)

Section ClosedForms.
Context {K : Type} {SK : Scalar K}.

(** [sum_j c[j] * k[j]] over every [j], zero coefficients included. *)
Definition weighted_sum_all (zero : pytree K) (c : list K)
  (ks : list (pytree K)) : pytree K :=
  fold_left vadd (map (fun p => smul (fst p) (snd p)) (combine c ks)) zero.

(** The stage derivatives and the returned value of the explicit family when
    no term of a weighted sum is skipped. *)
Fixpoint rk_stage_derivatives_all (a : list (list K))
  (F P : pytree K -> pytree K) (dt : K) (u0 : pytree K) (i : nat)
  : list (pytree K) :=
  match i with
  | O => [F u0]
  | S m =>
      let ks := rk_stage_derivatives_all a F P dt u0 m in
      let u_star :=
        vadd u0 (smul dt (weighted_sum_all (zeros_like u0) (nth m a []) ks)) in
      ks ++ [F (P u_star)]
  end.

Definition rk_formula_all (a : list (list K)) (b : list K)
  (equation : ExplicitNavierStokesODE K) (dt : K) (u0 : pytree K) : pytree K :=
  let F := rhs_explicit_terms equation in
  let P := pressure_projection equation in
  let ks := rk_stage_derivatives_all a F P dt u0 (List.length b - 1) in
  P (vadd u0 (smul dt (weighted_sum_all (zeros_like u0) b ks))).

(** The four explicit presets, written out. *)
Definition forward_euler_formula (equation : ExplicitNavierStokesODE K)
  (dt : K) (u0 : pytree K) : pytree K :=
  let F := rhs_explicit_terms equation in
  let P := pressure_projection equation in
  P (vadd u0 (smul dt (F u0))).

Definition midpoint_rk2_formula (equation : ExplicitNavierStokesODE K)
  (dt : K) (u0 : pytree K) : pytree K :=
  let F := rhs_explicit_terms equation in
  let P := pressure_projection equation in
  let k0 := F u0 in
  let k1 := F (P (vadd u0 (smul dt (smul (frac 1 2) k0)))) in
  P (vadd u0 (smul dt k1)).

Definition heun_rk2_formula (equation : ExplicitNavierStokesODE K)
  (dt : K) (u0 : pytree K) : pytree K :=
  let F := rhs_explicit_terms equation in
  let P := pressure_projection equation in
  let k0 := F u0 in
  let k1 := F (P (vadd u0 (smul dt k0))) in
  P (vadd u0 (smul dt (vadd (smul (frac 1 2) k0) (smul (frac 1 2) k1)))).

Definition classic_rk4_formula (equation : ExplicitNavierStokesODE K)
  (dt : K) (u0 : pytree K) : pytree K :=
  let F := rhs_explicit_terms equation in
  let P := pressure_projection equation in
  let k0 := F u0 in
  let k1 := F (P (vadd u0 (smul dt (smul (frac 1 2) k0)))) in
  let k2 := F (P (vadd u0 (smul dt (smul (frac 1 2) k1)))) in
  let k3 := F (P (vadd u0 (smul dt k2))) in
  P (vadd u0
       (smul dt
          (vadd (vadd (vadd (smul (frac 1 6) k0) (smul (frac 1 3) k1))
                   (smul (frac 1 3) k2))
             (smul (frac 1 6) k3)))).

(** [backward_forward_euler] and [crank_nicolson_rk2], written out. *)
Definition backward_forward_euler_formula (equation : ImplicitExplicitODE K)
  (dt : K) (u0 : pytree K) : pytree K :=
  let F := explicit_terms equation in
  let G_inv := implicit_solve equation in
  G_inv (vadd u0 (smul dt (F u0))) dt.

Definition crank_nicolson_rk2_formula (equation : ImplicitExplicitODE K)
  (dt : K) (u0 : pytree K) : pytree K :=
  let F := explicit_terms equation in
  let G := implicit_terms equation in
  let G_inv := implicit_solve equation in
  let g := vadd u0 (smul (half * dt)%K (G u0)) in
  let h1 := F u0 in
  let u1 := G_inv (vadd g (smul dt h1)) (half * dt)%K in
  let h2 := smul half (vadd (F u1) h1) in
  G_inv (vadd g (smul dt h2)) (half * dt)%K.

(** The low-storage stages [k, ..., k + n - 1] on the running term [h]
    ([None] before the first stage, where the seed [0] contributes nothing)
    and the state [u]. *)
Fixpoint low_storage_stages (alphas betas gammas : list K)
  (equation : ImplicitExplicitODE K) (dt : K) (k n : nat)
  (h : option (pytree K)) (u : pytree K) : option (pytree K) * pytree K :=
  match n with
  | O => (h, u)
  | S n' =>
      let F := explicit_terms equation in
      let G := implicit_terms equation in
      let G_inv := implicit_solve equation in
      let h' :=
        match h with
        | None => F u
        | Some hp => vadd (F u) (smul (nth k betas 0%K) hp)
        end in
      let mu := (half * dt * (nth (k + 1) alphas 0 - nth k alphas 0))%K in
      let u' :=
        G_inv (vadd (vadd u (smul (nth k gammas 0 * dt)%K h')) (smul mu (G u)))
          mu in
      low_storage_stages alphas betas gammas equation dt (S k) n' (Some h') u'
  end.

Definition low_storage_formula (alphas betas gammas : list K)
  (equation : ImplicitExplicitODE K) (dt : K) (u : pytree K) : pytree K :=
  snd (low_storage_stages alphas betas gammas equation dt 0
         (List.length betas) None u).

(** The running term [h] of the step function for a term of the formula. *)
Definition running_term (h : option (pytree K)) : val K :=
  match h with
  | None => VNum 0%K
  | Some hp => VWrap hp
  end.


End ClosedForms.

(** ** spectral/equations.py: [ForcedNavierStokes2D] *)

Section Forced.
Context {K : Type} {SK : Scalar K}.

Variable Grid : Type.

(** [spectral.forcings.kolmogorov_forcing_fn], outside these sources. *)
Variable kolmogorov_forcing_fn : Grid -> array K -> array K.

Definition ForcedNavierStokes2D (viscosity : K) (grid : Grid) (smooth : bool)
  : NavierStokes2D Grid :=
  {| viscosity := viscosity;
     grid := grid;
     drag := frac 1 10;
     smooth := Some smooth;
     forcing_fn := Some kolmogorov_forcing_fn |}.

End Forced.

(** ** The part of a Butcher tableau that a step reads *)

Section Triangle.
Context {K : Type}.

(** Row [i - 1] cut to its first [i] entries, for the rows from [i] on. *)
Fixpoint lower_triangle_from (i : nat) (a : list (list K)) : list (list K) :=
  match a with
  | [] => []
  | row :: a' => firstn i row :: lower_triangle_from (S i) a'
  end.

Definition lower_triangle (a : list (list K)) : list (list K) :=
  lower_triangle_from 1 a.

End Triangle.

(** * Properties *)

Unset Implicit Arguments.

(** ** Scalar arithmetic *)

Section ScalarLemmas.
Context {K : Type} {SK : Scalar K}.

Add Field Kfield : K_field.

Lemma Kadd_0_r (x : K) : (x + 0 = x)%K.
Proof. ring. Qed.

Lemma Kmul_0_r (x : K) : (x * 0 = 0)%K.
Proof. ring. Qed.

End ScalarLemmas.

(** ** Arrays and trees *)

Section TreeLemmas.
Context {K : Type} {SK : Scalar K}.

Add Field Kfield_trees : K_field.

Lemma pytree_induction (P : pytree K -> Prop)
  (HL : forall x, P (Leaf x))
  (HN : forall fs, Forall (fun p => P (snd p)) fs -> P (Node fs)) :
  forall t, P t.
Proof.
  fix IH 1. intros [x|fs].
  - apply HL.
  - apply HN. induction fs as [|[n c] fs IHfs]; constructor.
    + apply IH.
    + exact IHfs.
Qed.

Lemma zip_with_length (op : K -> K -> K) (x y : array K) :
  List.length x = List.length y ->
  List.length (zip_with op x y) = List.length x.
Proof.
  revert y. induction x as [|a x IH]; intros [|b y] H; simpl in *;
    try discriminate; auto.
Qed.

Lemma arr_binop_same_length (op : K -> K -> K) (x y : array K) :
  List.length x = List.length y ->
  arr_binop op x y = Ok (zip_with op x y).
Proof.
  intros H. unfold arr_binop. rewrite H, Nat.eqb_refl. reflexivity.
Qed.

Lemma structure_tree_map (f : array K -> array K) (t : pytree K) :
  (forall x, List.length (f x) = List.length x) ->
  structure (tree_map f t) = structure t.
Proof.
  intros Hf. induction t as [x|fs IH] using pytree_induction; simpl.
  - now rewrite Hf.
  - f_equal. rewrite map_map. apply map_ext_Forall.
    eapply Forall_impl; [|exact IH]. intros [n c] E; simpl in *. now rewrite E.
Qed.

Lemma tree_map_ext (f g : array K -> array K) (t : pytree K) :
  (forall x, f x = g x) -> tree_map f t = tree_map g t.
Proof.
  intros Hfg. induction t as [x|fs IH] using pytree_induction; simpl.
  - now rewrite Hfg.
  - f_equal. apply map_ext_Forall.
    eapply Forall_impl; [|exact IH]. intros [n c] E; simpl in *. now rewrite E.
Qed.

Lemma tree_map_id (f : array K -> array K) (t : pytree K) :
  (forall x, f x = x) -> tree_map f t = t.
Proof.
  intros Hf. induction t as [x|fs IH] using pytree_induction; simpl.
  - now rewrite Hf.
  - f_equal. rewrite <- (map_id fs) at 2. apply map_ext_Forall.
    eapply Forall_impl; [|exact IH]. intros [n c] E; simpl in *. now rewrite E.
Qed.

Lemma tree_map_compose (f g : array K -> array K) (t : pytree K) :
  tree_map f (tree_map g t) = tree_map (fun x => f (g x)) t.
Proof.
  induction t as [x|fs IH] using pytree_induction; simpl.
  - reflexivity.
  - f_equal. rewrite map_map. apply map_ext_Forall.
    eapply Forall_impl; [|exact IH]. intros [n c] E; simpl in *. now rewrite E.
Qed.

(** On trees of one structure, [tree_map] with an elementwise array
    operation succeeds and is the operation of the vector space. *)
Lemma tree_map2_zip (op : K -> K -> K) (s t : pytree K) :
  structure s = structure t ->
  tree_map2 (arr_binop op) s t = Ok (tree_zip op s t).
Proof.
  revert t. induction s as [x|fs IH] using pytree_induction;
    intros [y|gs] H; simpl in H; try discriminate.
  - injection H as H. simpl. now rewrite arr_binop_same_length.
  - injection H as H. simpl.
    revert gs H. induction IH as [|[n c] fs Hc _ IHfs]; intros [|[m d] gs] H;
      simpl in H; try discriminate; [reflexivity|].
    injection H as Hn Hcd Hrest.
    specialize (IHfs gs Hrest). simpl in IHfs.
    subst m. rewrite String.eqb_refl.
    simpl in Hc. rewrite (Hc d Hcd). simpl.
    destruct ((fix go (fs0 gs0 : list (string * pytree K)) {struct fs0} :
                 result (list (string * pytree K)) := _) fs gs) as [r|e] eqn:E;
      simpl in IHfs; [|discriminate].
    injection IHfs as IHfs. simpl. now rewrite IHfs.
Qed.

Lemma structure_tree_zip (op : K -> K -> K) (s t : pytree K) :
  structure s = structure t -> structure (tree_zip op s t) = structure s.
Proof.
  revert t. induction s as [x|fs IH] using pytree_induction;
    intros [y|gs] H; simpl in H; try discriminate.
  - injection H as H. simpl. now rewrite zip_with_length.
  - injection H as H. simpl. f_equal.
    revert gs H. induction IH as [|[n c] fs Hc _ IHfs]; intros [|[m d] gs] H;
      simpl in H; try discriminate; [reflexivity|].
    injection H as Hn Hcd Hrest. simpl. f_equal.
    + simpl in Hc. now rewrite Hc.
    + now apply IHfs.
Qed.

Lemma zip_add_zeros_r (x y : array K) :
  List.length x = List.length y ->
  zip_with Kadd x (map (fun _ => 0%K) y) = x.
Proof.
  revert y. induction x as [|a x IH]; intros [|b y] H; simpl in *;
    try discriminate; auto.
  injection H as H. rewrite (IH y H). f_equal. ring.
Qed.

Lemma zip_add_zeros_l (x y : array K) :
  List.length x = List.length y ->
  zip_with Kadd (map (fun _ => 0%K) y) x = x.
Proof.
  revert y. induction x as [|a x IH]; intros [|b y] H; simpl in *;
    try discriminate; auto.
  injection H as H. rewrite (IH y H). f_equal. ring.
Qed.

Lemma vadd_zeros_r (s t : pytree K) :
  structure s = structure t -> vadd s (zeros_like t) = s.
Proof.
  unfold vadd, zeros_like. revert t.
  induction s as [x|fs IH] using pytree_induction;
    intros [y|gs] H; simpl in H; try discriminate.
  - injection H as H. simpl. now rewrite zip_add_zeros_r.
  - injection H as H. simpl. f_equal.
    revert gs H. induction IH as [|[n c] fs Hc _ IHfs]; intros [|[m d] gs] H;
      simpl in H; try discriminate; [reflexivity|].
    injection H as Hn Hcd Hrest. simpl. f_equal.
    + simpl in Hc. now rewrite Hc.
    + now apply IHfs.
Qed.

Lemma vadd_zeros_l (s t : pytree K) :
  structure s = structure t -> vadd (zeros_like t) s = s.
Proof.
  unfold vadd, zeros_like. revert t.
  induction s as [x|fs IH] using pytree_induction;
    intros [y|gs] H; simpl in H; try discriminate.
  - injection H as H. simpl. now rewrite zip_add_zeros_l.
  - injection H as H. simpl. f_equal.
    revert gs H. induction IH as [|[n c] fs Hc _ IHfs]; intros [|[m d] gs] H;
      simpl in H; try discriminate; [reflexivity|].
    injection H as Hn Hcd Hrest. simpl. f_equal.
    + simpl in Hc. rewrite Hc by assumption. now subst.
    + now apply IHfs.
Qed.

Lemma structure_zeros_like (t : pytree K) :
  structure (zeros_like t) = structure t.
Proof. apply structure_tree_map. intros x. apply length_map. Qed.

Lemma structure_smul (c : K) (t : pytree K) :
  structure (smul c t) = structure t.
Proof. apply structure_tree_map. intros x. apply length_map. Qed.

Lemma structure_vadd (s t : pytree K) :
  structure s = structure t -> structure (vadd s t) = structure s.
Proof. apply structure_tree_zip. Qed.

Lemma smul_zeros_like (c : K) (t : pytree K) :
  smul c (zeros_like t) = zeros_like t.
Proof.
  unfold smul, zeros_like. rewrite tree_map_compose. apply tree_map_ext.
  intros x. rewrite map_map. apply map_ext. intros _. ring.
Qed.

(** The wrapper multiplies each leaf on the right, [x * c]. *)
Lemma tree_map_mul_scalar (c : K) (t : pytree K) :
  tree_map (fun x => arr_mul_scalar x c) t = smul c t.
Proof.
  apply tree_map_ext. intros x. apply map_ext. intros v. ring.
Qed.

Lemma tree_map_add_scalar_zero (c : K) (t : pytree K) :
  c = 0%K -> tree_map (fun x => arr_add_scalar x c) t = t.
Proof.
  intros ->. apply tree_map_id. intros x. unfold arr_add_scalar.
  rewrite <- (map_id x) at 2. apply map_ext. intros v. ring.
Qed.

(** Adding two wrapped states of one structure. *)
Lemma py_add_wrapped (s t : pytree K) :
  structure s = structure t ->
  py_add (VWrap s) (VWrap t) = Ok (VWrap (vadd s t)).
Proof.
  intros H. simpl. unfold arr_add. now rewrite tree_map2_zip.
Qed.

Lemma py_mul_scalar_wrapped (c : K) (t : pytree K) :
  py_mul (VNum c) (VWrap t) = Ok (VWrap (smul c t)).
Proof. simpl. now rewrite tree_map_mul_scalar. Qed.

End TreeLemmas.

(** ** Lists, loops and generators *)

Lemma bind_Ok {A B : Type} (a : A) (f : A -> result B) : bind (Ok a) f = f a.
Proof. reflexivity. Qed.

Lemma for_each_app {S A : Type} (xs ys : list A) (body : A -> S -> result S)
  (s : S) :
  for_each (xs ++ ys) body s = (s' <- for_each xs body s ;; for_each ys body s').
Proof.
  revert s. induction xs as [|x xs IH]; intros s; simpl; [reflexivity|].
  destruct (body x s) as [s'|e]; simpl; [apply IH|reflexivity].
Qed.

Lemma getitem_app {A : Type} (pre post : list A) (x : A) :
  getitem (pre ++ x :: post) (List.length pre) = Ok x.
Proof.
  unfold getitem. rewrite nth_error_app2 by lia.
  now rewrite Nat.sub_diag.
Qed.

Lemma setitem_app {A : Type} (pre post : list A) (x v : A) :
  setitem (pre ++ x :: post) (List.length pre) v = Ok (pre ++ v :: post).
Proof.
  induction pre as [|p pre IH]; simpl; [reflexivity|]. now rewrite IH.
Qed.

Lemma setitem_in_range {A : Type} (xs : list A) (i : nat) (v : A) :
  i < List.length xs ->
  exists ys, setitem xs i v = Ok ys /\ List.length ys = List.length xs
             /\ getitem ys i = Ok v.
Proof.
  revert i. induction xs as [|x xs IH]; intros i H; simpl in H; [lia|].
  destruct i as [|j]; simpl.
  - exists (v :: xs). repeat split.
  - destruct (IH j) as (ys & E & L & G); [lia|].
    exists (x :: ys). rewrite E. simpl. repeat split.
    + now rewrite L.
    + exact G.
Qed.

Lemma getitem_nth {A : Type} (xs : list A) (i : nat) (d : A) :
  i < List.length xs -> getitem xs i = Ok (nth i xs d).
Proof.
  intros H. unfold getitem. now rewrite (nth_error_nth' xs d H).
Qed.

(** ** The explicit Runge-Kutta stepper *)

Section ExplicitLemmas.
Context {K : Type} {SK : Scalar K}.

Lemma weighted_sum_terms (zero : pytree K) (c : list K) (ks : list (pytree K)) :
  weighted_sum zero c ks = fold_left vadd (terms_of c ks) zero.
Proof. reflexivity. Qed.

(** The generator of one stage, run on the known prefix of [k]. *)
Lemma genexp_terms (ks : list (pytree K)) :
  forall (row pre_row : list K) (pre_k rest : list (option (val K))),
    List.length pre_k = List.length pre_row ->
    List.length ks <= List.length row ->
    genexp (seq (List.length pre_row) (List.length ks))
      (fun j =>
         row' <- Ok (pre_row ++ row) ;;
         cj <- getitem row' j ;;
         if truthy cj
         then kj <- stage_value
                      (pre_k ++ map (fun t => Some (VWrap t)) ks ++ rest) j ;;
              t <- py_mul (VNum cj) kj ;;
              Ok (Some t)
         else Ok None)
    = Ok (map VWrap (terms_of row ks)).
Proof.
  induction ks as [|t ks IH]; intros row pre_row pre_k rest Hpre Hlen.
  - destruct row; reflexivity.
  - destruct row as [|c row]; [simpl in Hlen; lia|].
    cbn [List.length seq genexp map app]. rewrite bind_Ok, getitem_app.
    rewrite bind_Ok.
    specialize (IH row (pre_row ++ [c]) (pre_k ++ [Some (VWrap t)]) rest).
    rewrite !length_app in IH. cbn [List.length] in IH.
    rewrite !Nat.add_1_r in IH.
    rewrite <- !app_assoc in IH. cbn [app] in IH.
    rewrite IH by (simpl in Hlen; lia). clear IH.
    unfold terms_of. cbn [combine filter fst snd map].
    destruct (truthy c); cbn [map].
    + unfold stage_value. rewrite <- Hpre.
      rewrite getitem_app. rewrite !bind_Ok.
      rewrite py_mul_scalar_wrapped. reflexivity.
    + reflexivity.
Qed.

Lemma weighted_terms_known (row : list K) (ks : list (pytree K))
  (rest : list (option (val K))) :
  List.length ks <= List.length row ->
  weighted_terms (Ok row) (map (fun t => Some (VWrap t)) ks ++ rest)
    (List.length ks)
  = Ok (map VWrap (terms_of row ks)).
Proof.
  intros H. unfold weighted_terms, range.
  exact (genexp_terms ks row [] [] rest eq_refl H).
Qed.

Lemma terms_of_nonempty (row : list K) (ks : list (pytree K)) :
  existsb truthy (firstn (List.length ks) row) = true -> terms_of row ks <> [].
Proof.
  unfold terms_of. revert row.
  induction ks as [|t ks IH]; intros [|c row] H; simpl in H; try discriminate.
  cbn [combine filter fst]. destruct (truthy c); cbn [map].
  - discriminate.
  - apply IH. exact H.
Qed.

Lemma terms_of_structure (d : treedef) (row : list K) (ks : list (pytree K)) :
  Forall (fun t => structure t = d) ks ->
  Forall (fun t => structure t = d) (terms_of row ks).
Proof.
  unfold terms_of. intros H. revert row.
  induction H as [|t ks Ht _ IH]; intros [|c row]; cbn [combine filter map];
    try constructor.
  cbn [fst]. destruct (truthy c); cbn [map]; [constructor|]; auto.
  cbn [fst snd]. now rewrite structure_smul.
Qed.

Lemma fold_vadd_structure (ts : list (pytree K)) (acc : pytree K) :
  Forall (fun t => structure t = structure acc) ts ->
  structure (fold_left vadd ts acc) = structure acc.
Proof.
  revert acc. induction ts as [|t ts IH]; intros acc H; [reflexivity|].
  inversion H as [|? ? Ht Hts]; subst. simpl.
  rewrite IH.
  - apply structure_vadd. now symmetry.
  - rewrite structure_vadd by now symmetry. exact Hts.
Qed.

(** The seedless reduction of [_sum] on states of one structure. *)
Lemma sum_from (ts : list (pytree K)) (acc : pytree K) :
  Forall (fun t => structure t = structure acc) ts ->
  for_each (map VWrap ts) (fun x result => py_add result x) (VWrap acc)
  = Ok (VWrap (fold_left vadd ts acc)).
Proof.
  revert acc. induction ts as [|t ts IH]; intros acc H; [reflexivity|].
  inversion H as [|? ? Ht Hts]; subst. cbn [map for_each].
  rewrite py_add_wrapped by now symmetry. rewrite bind_Ok.
  rewrite IH; [reflexivity|].
  rewrite structure_vadd by now symmetry. exact Hts.
Qed.

(** On a nonempty list of terms, [_sum] agrees with the sum seeded by zero. *)
Lemma sum_terms (z : pytree K) (ts : list (pytree K)) :
  Forall (fun t => structure t = structure z) ts ->
  ts <> [] ->
  _sum (map VWrap ts) = Ok (VWrap (fold_left vadd ts (zeros_like z))).
Proof.
  intros H Hne. destruct ts as [|t ts]; [congruence|].
  inversion H as [|? ? Ht Hts]; subst. cbn [map _sum fold_left].
  rewrite vadd_zeros_l by exact Ht.
  apply sum_from. now rewrite Ht.
Qed.

Lemma rows_usable_nth (a : list (list K)) :
  forall i m, rows_usable i a = true -> m < List.length a ->
    i + m <= List.length (nth m a [])
    /\ existsb truthy (firstn (i + m) (nth m a [])) = true.
Proof.
  induction a as [|row a IH]; intros i m H Hm; simpl in Hm; [lia|].
  simpl in H. apply andb_prop in H as [H Hrest]. apply andb_prop in H as [Hlen Hex].
  destruct m as [|m]; simpl.
  - rewrite Nat.add_0_r. split; [now apply Nat.leb_le|exact Hex].
  - destruct (IH (S i) m Hrest) as [H1 H2]; [lia|].
    replace (i + S m) with (S i + m) by lia. now split.
Qed.

Section Stages.
Variable a : list (list K).
Variable equation : ExplicitNavierStokesODE K.
Variable dt : K.
Variable u0 : pytree K.

Let F := rhs_explicit_terms equation.
Let P := pressure_projection equation.

Hypothesis HF : preserves_structure F.
Hypothesis HP : preserves_structure P.

Lemma rk_stage_derivatives_length (m : nat) :
  List.length (rk_stage_derivatives a F P dt u0 m) = S m.
Proof.
  induction m as [|m IH]; simpl; [reflexivity|].
  rewrite length_app, IH. simpl. lia.
Qed.

Lemma u_star_structure (row : list K) (ks : list (pytree K)) :
  Forall (fun t => structure t = structure u0) ks ->
  structure (vadd u0 (smul dt (weighted_sum (zeros_like u0) row ks)))
  = structure u0.
Proof.
  intros H. apply structure_vadd. rewrite structure_smul.
  rewrite weighted_sum_terms, fold_vadd_structure.
  - now rewrite structure_zeros_like.
  - rewrite structure_zeros_like. now apply terms_of_structure.
Qed.

Lemma rk_stage_derivatives_structure (m : nat) :
  Forall (fun t => structure t = structure u0)
    (rk_stage_derivatives a F P dt u0 m).
Proof.
  induction m as [|m IH]; simpl.
  - constructor; [apply HF|constructor].
  - apply Forall_app. split; [exact IH|].
    constructor; [|constructor].
    rewrite HF, HP. now apply u_star_structure.
Qed.

(** What [u0 + dt * _sum(...)] evaluates to, given the known stages. *)
Lemma stage_combination (row : list K) (ks : list (pytree K))
  (rest : list (option (val K))) :
  List.length ks <= List.length row ->
  existsb truthy (firstn (List.length ks) row) = true ->
  Forall (fun t => structure t = structure u0) ks ->
  (terms <- weighted_terms (Ok row)
              (map (fun t => Some (VWrap t)) ks ++ rest) (List.length ks) ;;
   s <- _sum terms ;;
   ds <- py_mul (VNum dt) s ;;
   py_add (VWrap u0) ds)
  = Ok (VWrap (vadd u0 (smul dt (weighted_sum (zeros_like u0) row ks)))).
Proof.
  intros Hlen Hex Hks.
  rewrite weighted_terms_known by exact Hlen. rewrite bind_Ok.
  rewrite (sum_terms u0).
  - rewrite bind_Ok, py_mul_scalar_wrapped, bind_Ok.
    rewrite <- weighted_sum_terms. apply py_add_wrapped.
    rewrite structure_smul, weighted_sum_terms, fold_vadd_structure.
    + now rewrite structure_zeros_like.
    + rewrite structure_zeros_like. now apply terms_of_structure.
  - now apply terms_of_structure.
  - now apply terms_of_nonempty.
Qed.

Lemma rk_stage_step (n m : nat) (u : list (option (val K))) :
  S (S m) <= n -> m < List.length a -> rows_usable 1 a = true ->
  List.length u = n ->
  exists u',
    rk_stage a (tree_math.pytree_to_vector_fun F)
      (tree_math.pytree_to_vector_fun P) dt (VWrap u0) (S m)
      (u, k_state a F P dt u0 n m)
    = Ok (u', k_state a F P dt u0 n (S m))
    /\ List.length u' = n.
Proof.
  intros Hn Hm Hrows Hu.
  destruct (rows_usable_nth a 1 m Hrows Hm) as [Hlen Hex].
  pose proof (rk_stage_derivatives_length m) as Lks.
  pose proof (rk_stage_derivatives_structure m) as Sks.
  set (ks := rk_stage_derivatives a F P dt u0 m) in *.
  set (u_star := vadd u0 (smul dt (weighted_sum (zeros_like u0) (nth m a []) ks))).
  destruct (setitem_in_range u (S m) (Some (VWrap (P u_star))))
    as (u' & Eu & Lu & Gu); [lia|].
  exists u'. split; [|lia].
  unfold rk_stage.
  replace (S m - 1) with m by lia.
  rewrite (getitem_nth a m [] Hm).
  unfold k_state. fold ks.
  pose proof (stage_combination (nth m a []) ks (repeat None (n - S m))) as C.
  rewrite Lks in C. cbn [Nat.add] in Hlen, Hex.
  specialize (C Hlen Hex Sks). fold u_star in C.
  destruct (weighted_terms (Ok (nth m a []))
              (map (fun t => Some (VWrap t)) ks ++ repeat None (n - S m)) (S m))
    as [terms|e]; [|discriminate].
  rewrite bind_Ok. rewrite bind_Ok in C.
  destruct (_sum terms) as [s|e]; [|discriminate].
  rewrite bind_Ok. rewrite bind_Ok in C.
  destruct (py_mul (VNum dt) s) as [ds|e]; [|discriminate].
  rewrite bind_Ok. rewrite bind_Ok in C. rewrite C, bind_Ok.
  unfold tree_math.pytree_to_vector_fun at 1. cbn [get_pytree]. rewrite !bind_Ok.
  rewrite Eu, bind_Ok. unfold stage_value. rewrite Gu, !bind_Ok.
  unfold tree_math.pytree_to_vector_fun. cbn [get_pytree]. rewrite !bind_Ok.
  replace (n - S m) with (S (n - S (S m))) by lia. cbn [repeat].
  assert (Ek : forall v rest,
             setitem (map (fun t => Some (VWrap t)) ks ++ None :: rest) (S m) v
             = Ok (map (fun t => Some (VWrap t)) ks ++ v :: rest)).
  { intros v rest. rewrite <- Lks.
    rewrite <- (length_map (fun t => Some (VWrap t)) ks). apply setitem_app. }
  rewrite Ek, bind_Ok.
  cbn [rk_stage_derivatives]. fold ks. fold u_star.
  rewrite map_app, <- app_assoc. reflexivity.
Qed.

Lemma rk_stage_loop (n : nat) :
  rows_usable 1 a = true ->
  forall m (u : list (option (val K))),
    S m <= n -> m <= List.length a -> List.length u = n ->
    exists u',
      for_each (seq 1 m)
        (rk_stage a (tree_math.pytree_to_vector_fun F)
           (tree_math.pytree_to_vector_fun P) dt (VWrap u0))
        (u, k_state a F P dt u0 n 0)
      = Ok (u', k_state a F P dt u0 n m)
      /\ List.length u' = n.
Proof.
  intros Hrows. induction m as [|m IH]; intros u Hn Hm Hu.
  - exists u. split; [reflexivity|exact Hu].
  - destruct (IH u) as (u1 & E1 & L1); [lia|lia|exact Hu|].
    destruct (rk_stage_step n m u1) as (u2 & E2 & L2);
      [lia|lia|exact Hrows|exact L1|].
    exists u2. split; [|exact L2].
    rewrite seq_S, for_each_app, E1, bind_Ok. cbn [Nat.add for_each].
    rewrite E2. reflexivity.
Qed.

Lemma rk_step_fn_formula (b : list K) :
  List.length a + 1 = List.length b ->
  tableau_usable a b = true ->
  rk_step_fn a b equation dt u0 = Ok (rk_formula a b equation dt u0).
Proof.
  intros Hlen Huse. unfold tableau_usable in Huse.
  apply andb_prop in Huse as [Hrows Hb].
  unfold rk_step_fn, rk_formula, tree_math.vector_to_pytree_fun, range2.
  fold F. fold P.
  assert (Hn : List.length b = S (List.length a)) by lia.
  rewrite !Hn. cbn [repeat setitem]. rewrite !bind_Ok.
  unfold tree_math.pytree_to_vector_fun at 1. cbn [get_pytree]. rewrite !bind_Ok.
  replace (S (List.length a) - 1) with (List.length a) by lia.
  set (n := S (List.length a)).
  destruct (rk_stage_loop n Hrows (List.length a)
              (Some (VWrap u0) :: repeat None (List.length a)))
    as (u' & E & L); [unfold n; lia|lia| |].
  { cbn [List.length]. now rewrite repeat_length. }
  unfold k_state at 1 in E. cbn [rk_stage_derivatives map app] in E.
  replace (n - 1) with (List.length a) in E by (unfold n; lia).
  rewrite E, bind_Ok. cbn [snd].
  unfold k_state. replace (n - S (List.length a)) with 0 by (unfold n; lia).
  cbn [repeat].
  pose proof (rk_stage_derivatives_length (List.length a)) as Lks.
  pose proof (rk_stage_derivatives_structure (List.length a)) as Sks.
  set (ks := rk_stage_derivatives a F P dt u0 (List.length a)) in *.
  pose proof (stage_combination b ks []) as C.
  rewrite Lks in C. fold n in C.
  assert (Hb' : existsb truthy (firstn n b) = true).
  { unfold n. rewrite <- Hn. now rewrite firstn_all. }
  assert (Hle : n <= List.length b) by (unfold n; lia).
  specialize (C Hle Hb' Sks).
  destruct (weighted_terms (Ok b) (map (fun t => Some (VWrap t)) ks ++ []) n)
    as [terms|e]; [|discriminate].
  rewrite bind_Ok. rewrite bind_Ok in C.
  destruct (_sum terms) as [s|e]; [|discriminate].
  rewrite bind_Ok. rewrite bind_Ok in C.
  destruct (py_mul (VNum dt) s) as [ds|e]; [|discriminate].
  rewrite bind_Ok. rewrite bind_Ok in C. rewrite C, bind_Ok.
  unfold tree_math.pytree_to_vector_fun. cbn [get_pytree]. rewrite !bind_Ok.
  reflexivity.
Qed.

End Stages.

End ExplicitLemmas.

(** ** Construction-time validation *)

Section Construction.
Context {K : Type} {SK : Scalar K}.

Add Field Kfield_construction : K_field.

(** C5.  [navier_stokes_rk] raises [ValueError] at construction exactly when
    [len(a) + 1 != len(b)], and returns a step function exactly when
    [len(a) + 1 == len(b)]. *)
Theorem navier_stokes_rk_construction (a : list (list K)) (b : list K)
  (equation : ExplicitNavierStokesODE K) (dt : K) :
  (navier_stokes_rk a b equation dt = Raise ValueError
   <-> List.length a + 1 <> List.length b)
  /\ ((exists step, navier_stokes_rk a b equation dt = Ok step)
      <-> List.length a + 1 = List.length b)
  /\ (navier_stokes_rk a b equation dt = Raise ValueError
      \/ navier_stokes_rk a b equation dt = Ok (rk_step_fn a b equation dt)).
Proof.
  unfold navier_stokes_rk.
  destruct (Nat.eqb_spec (List.length a + 1) (List.length b)) as [E|N]; simpl.
  - repeat split; try (intros; congruence); eauto.
  - repeat split; try (intros; congruence); eauto.
    intros [step H]. discriminate.
Qed.

Lemma rk_coefficients_rejected_iff (alphas betas gammas : list K) :
  rk_coefficients_rejected alphas betas gammas = true
  <-> (Z.of_nat (List.length alphas) - 1 <> Z.of_nat (List.length betas))%Z
      /\ List.length betas <> List.length gammas.
Proof.
  unfold rk_coefficients_rejected.
  rewrite andb_true_iff, !negb_true_iff, Z.eqb_neq, Nat.eqb_neq. reflexivity.
Qed.

Lemma low_storage_construction (alphas betas gammas : list K)
  (equation : ImplicitExplicitODE K) (dt : K) :
  low_storage_runge_kutta_crank_nicolson alphas betas gammas equation dt
  = Raise ValueError
  <-> (Z.of_nat (List.length alphas) - 1 <> Z.of_nat (List.length betas))%Z
      /\ List.length betas <> List.length gammas.
Proof.
  rewrite <- rk_coefficients_rejected_iff.
  unfold low_storage_runge_kutta_crank_nicolson.
  destruct (rk_coefficients_rejected alphas betas gammas); split; congruence.
Qed.

Lemma rk_coefficients_consistent_accepted (alphas betas gammas : list K) :
  rk_coefficients_consistent alphas betas gammas = true ->
  rk_coefficients_rejected alphas betas gammas = false.
Proof.
  unfold rk_coefficients_consistent, rk_coefficients_rejected.
  intros H. apply andb_prop in H as [H1 H2]. now rewrite H1.
Qed.

(** Stages after the first never read [betas[0]]. *)
Lemma low_storage_stage_later (alphas betas gammas : list K) (b0 b0' : K)
  (equation : ImplicitExplicitODE K) (dt : K) (k : nat) (hu : val K * val K) :
  low_storage_stage alphas (b0 :: betas) gammas equation dt (S k) hu
  = low_storage_stage alphas (b0' :: betas) gammas equation dt (S k) hu.
Proof. reflexivity. Qed.

Lemma for_each_ext {S A : Type} (xs : list A) (f g : A -> S -> result S) :
  (forall x s, In x xs -> f x s = g x s) ->
  forall s, for_each xs f s = for_each xs g s.
Proof.
  induction xs as [|x xs IH]; intros H s; simpl; [reflexivity|].
  rewrite (H x s) by now left.
  destruct (g x s) as [s'|e]; simpl; [|reflexivity].
  apply IH. intros y t Hy. apply H. now right.
Qed.

(** The first stage multiplies [betas[0]] by the scalar seed [h = 0]. *)
Lemma low_storage_stage_first (alphas betas gammas : list K) (b0 b0' : K)
  (equation : ImplicitExplicitODE K) (dt : K) (u : val K) :
  low_storage_stage alphas (b0 :: betas) gammas equation dt 0 (VNum 0%K, u)
  = low_storage_stage alphas (b0' :: betas) gammas equation dt 0 (VNum 0%K, u).
Proof.
  unfold low_storage_stage. cbn [getitem nth_error py_mul].
  destruct (_infix_to_pytree (explicit_terms equation) u) as [Fu|e];
    [|reflexivity].
  rewrite !bind_Ok.
  replace (b0 * 0)%K with 0%K by ring.
  replace (b0' * 0)%K with 0%K by ring.
  reflexivity.
Qed.

Lemma low_storage_step_fn_beta0 (alphas betas gammas : list K) (b0 b0' : K)
  (equation : ImplicitExplicitODE K) (dt : K) (u : pytree K) :
  low_storage_step_fn alphas (b0 :: betas) gammas equation dt u
  = low_storage_step_fn alphas (b0' :: betas) gammas equation dt u.
Proof.
  unfold low_storage_step_fn, _pytree_to_infix, range.
  cbn [List.length seq for_each].
  rewrite (low_storage_stage_first alphas betas gammas b0 b0').
  destruct (low_storage_stage alphas (b0' :: betas) gammas equation dt 0
              (VNum 0%K, VWrap u)) as [hu|e]; [|reflexivity].
  rewrite !bind_Ok.
  rewrite (for_each_ext (seq 1 (List.length betas))
             (low_storage_stage alphas (b0 :: betas) gammas equation dt)
             (low_storage_stage alphas (b0' :: betas) gammas equation dt));
    [reflexivity|].
  intros k s Hk. apply in_seq in Hk. destruct k as [|k]; [lia|].
  apply low_storage_stage_later.
Qed.

(** C10.  Construction never inspects the value of [betas[0]], and the
    steppers built from coefficient lists differing only in [betas[0]]
    return the same result on every state. *)
Theorem low_storage_ignores_beta0 (alphas betas gammas : list K) (b0 b0' : K)
  (equation : ImplicitExplicitODE K) (dt : K) :
  match
    low_storage_runge_kutta_crank_nicolson alphas (b0 :: betas) gammas
      equation dt,
    low_storage_runge_kutta_crank_nicolson alphas (b0' :: betas) gammas
      equation dt
  with
  | Ok step, Ok step' => forall u, step u = step' u
  | Raise e, Raise e' => e = e'
  | _, _ => False
  end.
Proof.
  unfold low_storage_runge_kutta_crank_nicolson, rk_coefficients_rejected.
  cbn [List.length].
  destruct (negb _ && negb _); [reflexivity|].
  intros u. apply low_storage_step_fn_beta0.
Qed.

End Construction.

(** C1.  The length test is a chained comparison, so it rejects only when
    both equalities fail: coefficient lists of lengths 4, 3 and 2 are
    accepted, and the stepper built from them fails with [IndexError] in its
    third stage. *)
Theorem low_storage_accepts_single_mismatch :
  (forall (K : Type) (SK : Scalar K) (alphas betas gammas : list K)
          (equation : ImplicitExplicitODE K) (dt : K),
      low_storage_runge_kutta_crank_nicolson alphas betas gammas equation dt
      = Raise ValueError
      <-> (Z.of_nat (List.length alphas) - 1 <> Z.of_nat (List.length betas))%Z
          /\ List.length betas <> List.length gammas)
  /\ (exists step,
         low_storage_runge_kutta_crank_nicolson
           [0%K; frac 1 3; frac 3 4; 1%K]
           [0%K; frac (-5) 9; frac (-153) 128]
           [frac 1 3; frac 15 16]
           (split_equation (K:=Qc)) 1%K
         = Ok step
         /\ step (Leaf [1%K]) = Raise IndexError).
Proof.
  split.
  - intros. apply low_storage_construction.
  - eexists. split; [reflexivity|]. vm_compute. reflexivity.
Qed.

(** ** Truthiness of the preset coefficients *)

Section Coefficients.
Context {K : Type} {SK : Scalar K}.

Add Field Kfield_coefficients : K_field.

Lemma truthy_true_iff (c : K) : truthy c = true <-> c <> 0%K.
Proof.
  unfold truthy. rewrite negb_true_iff. split.
  - intros H E. apply Keqb_eq in E. congruence.
  - intros H. destruct (Keqb c 0%K) eqn:E; [|reflexivity].
    apply Keqb_eq in E. contradiction.
Qed.

Lemma truthy_zero : truthy 0%K = false.
Proof.
  unfold truthy. rewrite negb_false_iff. now apply Keqb_eq.
Qed.

Lemma truthy_one : truthy 1%K = true.
Proof. apply truthy_true_iff. exact (F_1_neq_0 K_field). Qed.

Lemma KofZ_nonzero (z : Z) : z <> 0%Z -> KofZ z <> 0%K.
Proof.
  destruct z as [|p|p]; intros Hz; simpl; [congruence| |].
  - apply K_char0.
  - intros E. apply (K_char0 p). fold (Kpos p).
    replace (Kpos p) with (- - Kpos p)%K by ring. rewrite E. ring.
Qed.

Lemma frac_nonzero (n : Z) (d : positive) : n <> 0%Z -> frac n d <> 0%K.
Proof.
  intros Hn E. apply (KofZ_nonzero n Hn).
  assert (H : KofZ n = (frac n d * Kpos d)%K).
  { unfold frac. field. apply K_char0. }
  rewrite H, E. ring.
Qed.

Lemma truthy_frac (n : Z) (d : positive) : n <> 0%Z -> truthy (frac n d) = true.
Proof. intros H. apply truthy_true_iff. now apply frac_nonzero. Qed.

End Coefficients.

(** ** Explicit steppers: completion, stage formulas, zero dynamics *)

Section ExplicitClaims.
Context {K : Type} {SK : Scalar K}.

Lemma navier_stokes_rk_accepts (a : list (list K)) (b : list K)
  (equation : ExplicitNavierStokesODE K) (dt : K) :
  List.length a + 1 = List.length b ->
  navier_stokes_rk a b equation dt = Ok (rk_step_fn a b equation dt).
Proof.
  intros H. unfold navier_stokes_rk. now rewrite H, Nat.eqb_refl.
Qed.

(** C3 (amended).  When every stage of the tableau has the coefficients it
    reads, at least one of them nonzero, and the equation's functions
    preserve the structure of the state, construction succeeds and the step
    function returns a state on every input. *)
Theorem rk_step_completes (a : list (list K)) (b : list K)
  (equation : ExplicitNavierStokesODE K) (dt : K) :
  List.length a + 1 = List.length b ->
  tableau_usable a b = true ->
  preserves_structure (rhs_explicit_terms equation) ->
  preserves_structure (pressure_projection equation) ->
  exists step,
    navier_stokes_rk a b equation dt = Ok step
    /\ forall u0, exists v, step u0 = Ok v.
Proof.
  intros Hlen Huse HF HP. exists (rk_step_fn a b equation dt). split.
  - now apply navier_stokes_rk_accepts.
  - intros u0. exists (rk_formula a b equation dt u0).
    now apply rk_step_fn_formula.
Qed.

(** C6 (amended).  When every stage of the tableau has the coefficients it
    reads, at least one of them nonzero, and the equation's functions
    preserve the structure of the state, the step function returns exactly
    [P(u0 + dt * sum_j b[j] * k[j])], with [k[0] = F(u0)] and
    [k[i] = F(P(u0 + dt * sum_{j<i} a[i-1][j] * k[j]))]: the projection is
    applied after every stage and after the final combination. *)
Theorem rk_step_computes_stage_formulas (a : list (list K)) (b : list K)
  (equation : ExplicitNavierStokesODE K) (dt : K) (u0 : pytree K) :
  List.length a + 1 = List.length b ->
  tableau_usable a b = true ->
  preserves_structure (rhs_explicit_terms equation) ->
  preserves_structure (pressure_projection equation) ->
  exists step,
    navier_stokes_rk a b equation dt = Ok step
    /\ step u0 = Ok (rk_formula a b equation dt u0).
Proof.
  intros Hlen Huse HF HP. exists (rk_step_fn a b equation dt). split.
  - now apply navier_stokes_rk_accepts.
  - now apply rk_step_fn_formula.
Qed.

Lemma fold_vadd_zeros (z : pytree K) (ts : list (pytree K)) :
  Forall (fun t => t = zeros_like z) ts ->
  fold_left vadd ts (zeros_like z) = zeros_like z.
Proof.
  induction 1 as [|t ts Ht _ IH]; [reflexivity|].
  simpl. subst t. rewrite vadd_zeros_r; [exact IH|].
  now rewrite structure_zeros_like.
Qed.

Lemma weighted_sum_zeros (z : pytree K) (row : list K) (ks : list (pytree K)) :
  Forall (fun t => t = zeros_like z) ks ->
  weighted_sum (zeros_like z) row ks = zeros_like z.
Proof.
  intros H. rewrite weighted_sum_terms. apply fold_vadd_zeros.
  unfold terms_of. revert row.
  induction H as [|t ks Ht _ IH]; intros [|c row]; cbn [combine filter map];
    try constructor.
  cbn [fst]. destruct (truthy c); cbn [map]; [constructor|]; auto.
  cbn [fst snd]. subst t. apply smul_zeros_like.
Qed.

Lemma still_combination (dt : K) (u0 : pytree K) (row : list K)
  (ks : list (pytree K)) :
  Forall (fun t => t = zeros_like u0) ks ->
  vadd u0 (smul dt (weighted_sum (zeros_like u0) row ks)) = u0.
Proof.
  intros H. rewrite weighted_sum_zeros by exact H.
  rewrite smul_zeros_like. now apply vadd_zeros_r.
Qed.

Lemma rk_formula_still (a : list (list K)) (b : list K)
  (equation : ExplicitNavierStokesODE K) (dt : K) (u0 : pytree K) :
  explicit_zero_dynamics equation ->
  rk_formula a b equation dt u0 = u0.
Proof.
  intros [HF HP]. unfold rk_formula.
  assert (Hks : forall m,
             Forall (fun t => t = zeros_like u0)
               (rk_stage_derivatives a (rhs_explicit_terms equation)
                  (pressure_projection equation) dt u0 m)).
  { induction m as [|m IH]; simpl.
    - constructor; [apply HF|constructor].
    - apply Forall_app. split; [exact IH|]. constructor; [|constructor].
      rewrite HP, HF. now rewrite still_combination. }
  rewrite HP. apply still_combination. apply Hks.
Qed.

Lemma zero_dynamics_preserve (equation : ExplicitNavierStokesODE K) :
  explicit_zero_dynamics equation ->
  preserves_structure (rhs_explicit_terms equation)
  /\ preserves_structure (pressure_projection equation).
Proof.
  intros [HF HP]. split; intros x.
  - rewrite HF. apply structure_zeros_like.
  - now rewrite HP.
Qed.

Lemma rk_step_still (a : list (list K)) (b : list K)
  (equation : ExplicitNavierStokesODE K) (dt : K) (u : pytree K) :
  explicit_zero_dynamics equation ->
  List.length a + 1 = List.length b ->
  tableau_usable a b = true ->
  exists step, navier_stokes_rk a b equation dt = Ok step /\ step u = Ok u.
Proof.
  intros Hz Hlen Huse. destruct (zero_dynamics_preserve equation Hz) as [HF HP].
  exists (rk_step_fn a b equation dt). split.
  - now apply navier_stokes_rk_accepts.
  - rewrite rk_step_fn_formula by assumption.
    now rewrite rk_formula_still.
Qed.

Lemma preset_tableaux_usable :
  tableau_usable (K:=K) [] [1%K] = true
  /\ tableau_usable [[frac 1 2]] [0%K; 1%K] = true
  /\ tableau_usable [[1%K]] [frac 1 2; frac 1 2] = true
  /\ tableau_usable [[frac 1 2]; [0%K; frac 1 2]; [0%K; 0%K; 1%K]]
       [frac 1 6; frac 1 3; frac 1 3; frac 1 6] = true.
Proof.
  unfold tableau_usable. cbn.
  rewrite ?truthy_zero, ?truthy_one, ?truthy_frac by discriminate.
  repeat split.
Qed.

End ExplicitClaims.

(** ** Implicit-explicit steppers: zero dynamics and linear exactness *)

Section ImexClaims.
Context {K : Type} {SK : Scalar K}.

(** Evaluate the arithmetic of a step on zero increments. *)
Ltac still_arith :=
  repeat first
    [ rewrite bind_Ok
    | rewrite py_mul_scalar_wrapped
    | rewrite smul_zeros_like
    | rewrite py_add_wrapped by (rewrite ?structure_zeros_like; reflexivity)
    | rewrite vadd_zeros_r by (rewrite ?structure_zeros_like; reflexivity)
    | progress cbn [get_pytree] ].

Lemma backward_forward_euler_still (equation : ImplicitExplicitODE K)
  (dt : K) (u : pytree K) :
  imex_zero_dynamics equation ->
  backward_forward_euler equation dt u = Ok u.
Proof.
  intros (HF & HG & HS).
  unfold backward_forward_euler, _pytree_to_infix, _infix_to_pytree,
    _infix_to_pytree_aux.
  still_arith. rewrite HF. still_arith. now rewrite HS.
Qed.

Lemma crank_nicolson_rk2_still (equation : ImplicitExplicitODE K)
  (dt : K) (u : pytree K) :
  imex_zero_dynamics equation ->
  crank_nicolson_rk2 equation dt u = Ok u.
Proof.
  intros (HF & HG & HS).
  unfold crank_nicolson_rk2, _pytree_to_infix, _infix_to_pytree,
    _infix_to_pytree_aux.
  still_arith. rewrite HG, HF. still_arith. rewrite HS. still_arith.
  rewrite HF. still_arith. now rewrite HS.
Qed.

(** One low-storage stage with no dynamics: [u] is unchanged and [h]
    becomes the zero state. *)
Lemma low_storage_stage_still (alphas betas gammas : list K)
  (equation : ImplicitExplicitODE K) (dt : K) (k : nat) (h : val K)
  (u : pytree K) :
  imex_zero_dynamics equation ->
  k < List.length betas -> k + 1 < List.length alphas ->
  k < List.length gammas ->
  h = VNum 0%K \/ h = VWrap (zeros_like u) ->
  low_storage_stage alphas betas gammas equation dt k (h, VWrap u)
  = Ok (VWrap (zeros_like u), VWrap u).
Proof.
  intros (HF & HG & HS) Hb Ha Hg Hh.
  assert (Z : structure u = structure (zeros_like u))
    by now rewrite structure_zeros_like.
  unfold low_storage_stage, _infix_to_pytree, _infix_to_pytree_aux.
  cbn [get_pytree]. rewrite !bind_Ok, HF, HG.
  rewrite (getitem_nth betas k 0%K Hb), bind_Ok.
  assert (Eh : (bh <- py_mul (VNum (nth k betas 0%K)) h ;;
                py_add (VWrap (zeros_like u)) bh)
               = Ok (VWrap (zeros_like u))).
  { destruct Hh as [-> | ->].
    - cbn [py_mul py_add wrapper_add bind]. f_equal. f_equal.
      apply tree_map_add_scalar_zero. apply Kmul_0_r.
    - rewrite py_mul_scalar_wrapped, bind_Ok, smul_zeros_like.
      rewrite py_add_wrapped by reflexivity.
      rewrite vadd_zeros_r by now rewrite structure_zeros_like.
      reflexivity. }
  destruct (py_mul (VNum (nth k betas 0%K)) h) as [bh|e]; [|discriminate].
  rewrite bind_Ok in Eh. rewrite bind_Ok, Eh, bind_Ok.
  rewrite (getitem_nth alphas (k + 1) 0%K Ha), bind_Ok.
  rewrite (getitem_nth alphas k 0%K) by lia. rewrite bind_Ok.
  rewrite (getitem_nth gammas k 0%K Hg), bind_Ok.
  still_arith. now rewrite HS.
Qed.

Lemma low_storage_loop_still (alphas betas gammas : list K)
  (equation : ImplicitExplicitODE K) (dt : K) (u : pytree K) :
  imex_zero_dynamics equation ->
  List.length betas + 1 <= List.length alphas ->
  List.length betas <= List.length gammas ->
  forall (n lo : nat) (h : val K),
    lo + n <= List.length betas ->
    h = VNum 0%K \/ h = VWrap (zeros_like u) ->
    exists h',
      for_each (seq lo n)
        (low_storage_stage alphas betas gammas equation dt) (h, VWrap u)
      = Ok (h', VWrap u).
Proof.
  intros Hz Ha Hg. induction n as [|n IH]; intros lo h Hlo Hh.
  - exists h. reflexivity.
  - cbn [seq for_each].
    rewrite (low_storage_stage_still alphas betas gammas equation dt lo h u)
      by (try assumption; lia).
    rewrite bind_Ok. apply IH; [lia|now right].
Qed.

Lemma low_storage_step_still (alphas betas gammas : list K)
  (equation : ImplicitExplicitODE K) (dt : K) (u : pytree K) :
  imex_zero_dynamics equation ->
  rk_coefficients_consistent alphas betas gammas = true ->
  exists step,
    low_storage_runge_kutta_crank_nicolson alphas betas gammas equation dt
    = Ok step
    /\ step u = Ok u.
Proof.
  intros Hz Hc.
  exists (low_storage_step_fn alphas betas gammas equation dt). split.
  - unfold low_storage_runge_kutta_crank_nicolson.
    now rewrite rk_coefficients_consistent_accepted.
  - unfold rk_coefficients_consistent in Hc.
    apply andb_prop in Hc as [H1 H2].
    apply Z.eqb_eq in H1. apply Nat.eqb_eq in H2.
    destruct (low_storage_loop_still alphas betas gammas equation dt u Hz)
      with (n := List.length betas) (lo := 0) (h := VNum 0%K)
      as [h' E]; try lia; [now left|].
    unfold low_storage_step_fn, _pytree_to_infix, range.
    rewrite E. reflexivity.
Qed.

(** C7.  For a strictly linear equation the forward-backward Euler step is
    the exact backward-Euler iterate [u / (1 - dt * lam)], leaf by leaf. *)
Theorem backward_forward_euler_linear (equation : ImplicitExplicitODE K)
  (lam dt : K) (u : pytree K) :
  (forall x, explicit_terms equation x = zeros_like x) ->
  (forall x, implicit_terms equation x = smul lam x) ->
  (forall x h, implicit_solve equation x h
               = tree_map (map (fun v => v / (1 - h * lam))%K) x) ->
  backward_forward_euler equation dt u
  = Ok (tree_map (map (fun v => v / (1 - dt * lam))%K) u).
Proof.
  intros HF HG HS.
  unfold backward_forward_euler, _pytree_to_infix, _infix_to_pytree,
    _infix_to_pytree_aux.
  still_arith. rewrite HF. still_arith. now rewrite HS.
Qed.

End ImexClaims.

Lemma backward_forward_euler_linear_witness :
  backward_forward_euler (linear_equation (K:=Qc) (frac (-1) 2)) (frac 1 10)
    (two_fields [1%K; frac 3 1] [frac 2 1])
  = Ok (tree_map (map (fun v => v / (1 - frac 1 10 * frac (-1) 2))%K)
          (two_fields [1%K; frac 3 1] [frac 2 1])).
Proof.
  apply (backward_forward_euler_linear (K:=Qc) (linear_equation (frac (-1) 2))
           (frac (-1) 2) (frac 1 10));
    intros; reflexivity.
Defined.

(** ** The zero-dynamics fixed point *)

(** C4 (amended).  With no dynamics, every stepper whose coefficient tables
    let a step run to completion returns its input: [navier_stokes_rk] on a
    tableau whose stages each have a nonzero coefficient, the four explicit
    presets, [backward_forward_euler], [crank_nicolson_rk2],
    [low_storage_runge_kutta_crank_nicolson] on coefficient lists satisfying
    the length invariant, and its two presets. *)
Theorem zero_dynamics_fixed_point {K : Type} {SK : Scalar K}
  (still : ExplicitNavierStokesODE K) (still' : ImplicitExplicitODE K)
  (dt : K) (u : pytree K) :
  explicit_zero_dynamics still ->
  imex_zero_dynamics still' ->
  (forall a b,
      List.length a + 1 = List.length b -> tableau_usable a b = true ->
      exists step, navier_stokes_rk a b still dt = Ok step /\ step u = Ok u)
  /\ (exists step, forward_euler still dt = Ok step /\ step u = Ok u)
  /\ (exists step, midpoint_rk2 still dt = Ok step /\ step u = Ok u)
  /\ (exists step, heun_rk2 still dt = Ok step /\ step u = Ok u)
  /\ (exists step, classic_rk4 still dt = Ok step /\ step u = Ok u)
  /\ backward_forward_euler still' dt u = Ok u
  /\ crank_nicolson_rk2 still' dt u = Ok u
  /\ (forall alphas betas gammas,
         rk_coefficients_consistent alphas betas gammas = true ->
         exists step,
           low_storage_runge_kutta_crank_nicolson alphas betas gammas still' dt
           = Ok step
           /\ step u = Ok u)
  /\ (exists step, crank_nicolson_rk3 still' dt = Ok step /\ step u = Ok u)
  /\ (exists step, crank_nicolson_rk4 still' dt = Ok step /\ step u = Ok u).
Proof.
  intros HE HI.
  destruct (@preset_tableaux_usable K SK) as (T1 & T2 & T3 & T4).
  repeat split.
  - intros a b Hlen Huse. now apply rk_step_still.
  - now apply rk_step_still.
  - now apply rk_step_still.
  - now apply rk_step_still.
  - now apply rk_step_still.
  - now apply backward_forward_euler_still.
  - now apply crank_nicolson_rk2_still.
  - intros alphas betas gammas Hc. now apply low_storage_step_still.
  - now apply low_storage_step_still.
  - now apply low_storage_step_still.
Qed.

Lemma zero_dynamics_fixed_point_witness :
  (exists step,
      classic_rk4 (still_equation (K:=Qc)) (frac 1 10) = Ok step
      /\ step (two_fields [1%K; frac 3 1] [frac 2 1])
         = Ok (two_fields [1%K; frac 3 1] [frac 2 1]))
  /\ (exists step,
         crank_nicolson_rk3 (still_imex (K:=Qc)) (frac 1 10) = Ok step
         /\ step (two_fields [1%K; frac 3 1] [frac 2 1])
            = Ok (two_fields [1%K; frac 3 1] [frac 2 1])).
Proof.
  pose proof (zero_dynamics_fixed_point (K:=Qc) still_equation still_imex
                (frac 1 10) (two_fields [1%K; frac 3 1] [frac 2 1])) as H.
  destruct H as (_ & _ & _ & _ & H4 & _ & _ & _ & H3 & _).
  - split; intros x; reflexivity.
  - repeat split.
  - split; assumption.
Defined.

(** With the tableau [a = [[0]]], [b = [1, 1]], which satisfies
    [len(a) + 1 == len(b)], the stepper of an equation with no dynamics
    raises in its second stage instead of returning its input. *)
Lemma zero_dynamics_step_raises :
  explicit_zero_dynamics (still_equation (K:=Qc))
  /\ exists step,
       navier_stokes_rk [[0%K]] [1%K; 1%K] (still_equation (K:=Qc)) (frac 1 10)
       = Ok step
       /\ step (Leaf [1%K]) = Raise ValueError.
Proof.
  split.
  - split; intros x; reflexivity.
  - eexists. split; [reflexivity|]. vm_compute. reflexivity.
Qed.

(** ** Completion and stage formulas: instances *)

Lemma rk_step_completes_witness :
  exists step,
    navier_stokes_rk [[1%K]] [frac 1 2; frac 1 2] (growth_equation (K:=Qc))
      (frac 1 10)
    = Ok step
    /\ forall u0, exists v, step u0 = Ok v.
Proof.
  apply (rk_step_completes (K:=Qc)).
  - reflexivity.
  - vm_compute. reflexivity.
  - intros x. reflexivity.
  - intros x. reflexivity.
Defined.

(** A tableau with an all-zero row of [a]: construction succeeds and the
    step raises [ValueError] from [_sum]. *)
Lemma rk_step_raises_on_zero_row :
  exists step,
    navier_stokes_rk [[0%K]] [0%K; 1%K] (growth_equation (K:=Qc)) 1%K = Ok step
    /\ step (Leaf [1%K]) = Raise ValueError.
Proof.
  eexists. split; [reflexivity|]. vm_compute. reflexivity.
Qed.

Lemma rk_step_computes_stage_formulas_witness :
  exists step,
    navier_stokes_rk [[1%K]] [frac 1 2; frac 1 2] (growth_equation (K:=Qc))
      (frac 1 10)
    = Ok step
    /\ step (two_fields [1%K; frac 3 1] [frac 2 1])
       = Ok (rk_formula [[1%K]] [frac 1 2; frac 1 2] growth_equation
               (frac 1 10) (two_fields [1%K; frac 3 1] [frac 2 1])).
Proof.
  apply (rk_step_computes_stage_formulas (K:=Qc)).
  - reflexivity.
  - vm_compute. reflexivity.
  - intros x. reflexivity.
  - intros x. reflexivity.
Defined.

(** With [a = [[0]]], [b = [1/2, 1/2]] the stage formulas denote a state,
    while the step raises. *)
Lemma rk_step_misses_stage_formulas :
  exists step,
    navier_stokes_rk [[0%K]] [frac 1 2; frac 1 2] (growth_equation (K:=Qc)) 1%K
    = Ok step
    /\ step (Leaf [1%K]) = Raise ValueError
    /\ step (Leaf [1%K])
       <> Ok (rk_formula [[0%K]] [frac 1 2; frac 1 2] growth_equation 1%K
                (Leaf [1%K])).
Proof.
  eexists. split; [reflexivity|].
  assert (E : rk_step_fn [[0%K]] [frac 1 2; frac 1 2] (growth_equation (K:=Qc))
                1%K (Leaf [1%K]) = Raise ValueError)
    by (vm_compute; reflexivity).
  split; [exact E|]. rewrite E. discriminate.
Qed.

(** ** The Navier-Stokes equation object *)

Section EquationClaims.
Context {K : Type} {SK : Scalar K}.

Add Field Kfield_equations : K_field.

Variable Grid : Type.
Variable rfft_mesh : Grid -> array K * array K.
Variable circular_filter_2d : Grid -> array K.
Variable vorticity_to_velocity : Grid -> array K -> array K * array K.
Variable irfftn : array K -> array K.
Variable rfftn : array K -> array K.
Variable pi : K.
Variable two_j : K.

(** Whatever [smooth] is, an equation without [forcing_fn] returns the
    advection term alone, filtered unless [smooth] is [None]. *)
Lemma explicit_terms_without_forcing (nu d : K) (g : Grid) (s : option bool)
  (w : array K) :
  let self := {| viscosity := nu; grid := g; drag := d; smooth := s;
                 forcing_fn := None |} in
  NS_explicit_terms rfft_mesh circular_filter_2d vorticity_to_velocity irfftn
    rfftn pi two_j self w
  = match s with
    | Some _ =>
        times
          (advection_hat rfft_mesh vorticity_to_velocity irfftn rfftn pi two_j
             self w)
          (filter_ circular_filter_2d self)
    | None =>
        advection_hat rfft_mesh vorticity_to_velocity irfftn rfftn pi two_j
          self w
    end.
Proof. destruct s; reflexivity. Qed.

(** The pointwise inverse of [1 - h * l]. *)
Lemma solve_then_apply (L x : array K) (h : K) :
  List.length x = List.length L ->
  Forall (fun l => (1 - h * l)%K <> 0%K) L ->
  let y := times (map (fun d => (1 / d)%K)
                    (map (fun l => (1 - l)%K) (scale h L))) x in
  backward_lhs y h (times L y) = x.
Proof.
  intros Hlen HL. revert x Hlen.
  induction HL as [|l L Hl _ IH]; intros [|v x] Hlen; simpl in Hlen;
    try discriminate; [reflexivity|].
  injection Hlen as Hlen. specialize (IH x Hlen).
  unfold backward_lhs, times, scale in *. cbn [map zip_with]. cbn zeta in IH.
  f_equal; [|exact IH].
  field. exact Hl.
Qed.

(** C8.  When [1 - h * linear_term] vanishes at no frequency, the state
    [y = implicit_solve(x, h)] satisfies [y - h * implicit_terms(y) = x]. *)
Theorem implicit_solve_solves_backward_equation (self : NavierStokes2D Grid)
  (x : array K) (h : K) :
  List.length x = List.length (linear_term rfft_mesh pi two_j self) ->
  Forall (fun l => (1 - h * l)%K <> 0%K) (linear_term rfft_mesh pi two_j self) ->
  let y := NS_implicit_solve rfft_mesh pi two_j self x h in
  backward_lhs y h (NS_implicit_terms rfft_mesh pi two_j self y) = x.
Proof.
  intros Hlen HL. unfold NS_implicit_solve, NS_implicit_terms.
  now apply solve_then_apply.
Qed.

End EquationClaims.

Lemma implicit_solve_solves_backward_equation_witness :
  let self := one_mode (K:=Qc) (Some true) in
  let y := NS_implicit_solve one_mode_mesh 1%K 1%K self [frac 3 1] (frac 1 10) in
  backward_lhs y (frac 1 10) (NS_implicit_terms one_mode_mesh 1%K 1%K self y)
  = [frac 3 1].
Proof.
  apply (implicit_solve_solves_backward_equation (K:=Qc) unit one_mode_mesh
           1%K 1%K (one_mode (Some true)) [frac 3 1] (frac 1 10)).
  - reflexivity.
  - constructor; [|constructor].
    intros E. apply (proj2 (Keqb_eq _ _)) in E. vm_compute in E. discriminate.
Defined.

(** C2.  [explicit_terms] tests [self.smooth is not None], so an equation
    built with [smooth=False] still multiplies the advection term by the
    circular filter; on the one-mode grid the filter removes the mode that
    the unfiltered term keeps.  Without [forcing_fn] nothing is added. *)
Theorem explicit_terms_filters_when_smooth_is_false :
  (forall (K : Type) (SK : Scalar K) (Grid : Type)
          (rfft_mesh : Grid -> array K * array K)
          (circular_filter_2d : Grid -> array K)
          (vorticity_to_velocity : Grid -> array K -> array K * array K)
          (irfftn rfftn : array K -> array K) (pi two_j nu d : K) (g : Grid)
          (w : array K),
      let self := {| viscosity := nu; grid := g; drag := d;
                     smooth := Some false; forcing_fn := None |} in
      NS_explicit_terms rfft_mesh circular_filter_2d vorticity_to_velocity
        irfftn rfftn pi two_j self w
      = times
          (advection_hat rfft_mesh vorticity_to_velocity irfftn rfftn pi two_j
             self w)
          (filter_ circular_filter_2d self))
  /\ NS_explicit_terms one_mode_mesh one_mode_filter one_mode_velocity
       no_transform no_transform 1%K 1%K (one_mode (K:=Qc) (Some false)) [1%K]
     <> advection_hat one_mode_mesh one_mode_velocity no_transform no_transform
          1%K 1%K (one_mode (K:=Qc) (Some false)) [1%K].
Proof.
  split.
  - intros. reflexivity.
  - intros E. apply (f_equal (map (fun q : Qc => this q))) in E.
    vm_compute in E. discriminate.
Qed.

(** ** Structure preservation *)

Section StructureClaims.
Context {K : Type} {SK : Scalar K}.

Lemma returns_bind {A B : Type} (R : A -> Prop) (Q : B -> Prop)
  (m : result A) (f : A -> result B) :
  returns R m -> (forall a, R a -> returns Q (f a)) -> returns Q (bind m f).
Proof.
  intros (a & E & Ha) Hf. rewrite E. simpl. now apply Hf.
Qed.

Lemma ok_then_bind {A B : Type} (R : A -> Prop) (Q : B -> Prop)
  (m : result A) (f : A -> result B) :
  ok_then R m -> (forall a, R a -> ok_then Q (f a)) -> ok_then Q (bind m f).
Proof.
  destruct m as [a|e]; simpl; intros Hm Hf; [now apply Hf|exact I].
Qed.

Lemma returns_ok_then {A : Type} (Q : A -> Prop) (m : result A) :
  returns Q m -> ok_then Q m.
Proof. intros (a & -> & Ha). exact Ha. Qed.

Lemma ok_then_elim {A : Type} (Q : A -> Prop) (m : result A) (a : A) :
  ok_then Q m -> m = Ok a -> Q a.
Proof. intros H ->. exact H. Qed.

Lemma returns_Ok {A : Type} (Q : A -> Prop) (a : A) : Q a -> returns Q (Ok a).
Proof. intros H. now exists a. Qed.

Lemma py_add_like (d : treedef) (x y : val K) :
  wrapped_like d x -> wrapped_like d y ->
  returns (wrapped_like d) (py_add x y).
Proof.
  destruct x as [c|s]; [contradiction|]. destruct y as [c|t]; [contradiction|].
  cbn [wrapped_like]. intros Hs Ht. rewrite py_add_wrapped by congruence.
  apply returns_Ok. simpl. rewrite structure_vadd; congruence.
Qed.

Lemma py_add_scalar_like (d : treedef) (x : val K) (c : K) :
  wrapped_like d x ->
  returns (wrapped_like d) (py_add x (VNum c))
  /\ returns (wrapped_like d) (py_add (VNum c) x).
Proof.
  destruct x as [c'|s]; [contradiction|]. simpl. intros Hs.
  split; apply returns_Ok; simpl; rewrite structure_tree_map; auto;
    intros x; apply length_map.
Qed.

Lemma py_mul_scalar_like (d : treedef) (x : val K) (c : K) :
  wrapped_like d x ->
  returns (wrapped_like d) (py_mul (VNum c) x)
  /\ returns (wrapped_like d) (py_mul x (VNum c)).
Proof.
  destruct x as [c'|s]; [contradiction|]. simpl. intros Hs.
  split; apply returns_Ok; simpl; rewrite structure_tree_map; auto;
    intros x; apply length_map.
Qed.

Lemma py_mul_like (d : treedef) (c : K) (x : val K) :
  wrapped_like d x -> returns (wrapped_like d) (py_mul (VNum c) x).
Proof. intros H. now apply py_mul_scalar_like. Qed.

(** The running term: [beta * h] and [F(u) + beta * h]. *)
Lemma py_mul_seed (d : treedef) (c : K) (h : val K) :
  seed_or_wrapped d h -> returns (seed_or_wrapped d) (py_mul (VNum c) h).
Proof.
  destruct h as [c'|t]; simpl; intros H.
  - now apply returns_Ok.
  - apply returns_Ok. simpl. rewrite structure_tree_map; auto.
    intros x. apply length_map.
Qed.

Lemma py_add_seed (d : treedef) (x h : val K) :
  wrapped_like d x -> seed_or_wrapped d h ->
  returns (wrapped_like d) (py_add x h).
Proof.
  intros Hx Hh. destruct h as [c|t].
  - now apply py_add_scalar_like.
  - now apply py_add_like.
Qed.

Lemma infix_to_pytree_like (d : treedef) (f : pytree K -> pytree K)
  (x : val K) :
  preserves_structure f -> wrapped_like d x ->
  returns (wrapped_like d) (_infix_to_pytree f x).
Proof.
  intros Hf. destruct x as [c|t]; [contradiction|]. simpl. intros Ht.
  apply returns_Ok. simpl. now rewrite Hf.
Qed.

Lemma infix_to_pytree_aux_like (d : treedef) (f : pytree K -> K -> pytree K)
  (x : val K) (h : K) :
  (forall h, preserves_structure (fun x => f x h)) -> wrapped_like d x ->
  returns (wrapped_like d) (_infix_to_pytree_aux f x h).
Proof.
  intros Hf. destruct x as [c|t]; [contradiction|]. simpl. intros Ht.
  apply returns_Ok. simpl. now rewrite (Hf h t).
Qed.

Lemma get_pytree_like (d : treedef) (x : val K) :
  wrapped_like d x -> returns (fun t => structure t = d) (get_pytree x).
Proof.
  destruct x as [c|t]; [contradiction|]. intros H. now apply returns_Ok.
Qed.

Lemma backward_forward_euler_structure (equation : ImplicitExplicitODE K)
  (dt : K) (u : pytree K) :
  imex_preserves_structure equation ->
  returns (fun v => structure v = structure u)
    (backward_forward_euler equation dt u).
Proof.
  intros (HF & HG & HS). set (d := structure u).
  assert (W : wrapped_like d (VWrap u)) by reflexivity.
  unfold backward_forward_euler, _pytree_to_infix.
  eapply returns_bind; [|intros r; apply get_pytree_like].
  eapply returns_bind; [apply infix_to_pytree_like; eassumption|]. intros Fu WF.
  eapply returns_bind; [apply py_mul_like; eassumption|]. intros dtF WdtF.
  eapply returns_bind; [apply py_add_like; eassumption|]. intros g Wg.
  eapply returns_bind; [apply infix_to_pytree_aux_like; [exact HS|eassumption]|]. intros u1 Wu1.
  now apply returns_Ok.
Qed.

Lemma crank_nicolson_rk2_structure (equation : ImplicitExplicitODE K)
  (dt : K) (u : pytree K) :
  imex_preserves_structure equation ->
  returns (fun v => structure v = structure u)
    (crank_nicolson_rk2 equation dt u).
Proof.
  intros (HF & HG & HS). set (d := structure u).
  assert (W : wrapped_like d (VWrap u)) by reflexivity.
  unfold crank_nicolson_rk2, _pytree_to_infix.
  eapply returns_bind; [|intros r; apply get_pytree_like].
  eapply returns_bind; [apply infix_to_pytree_like; eassumption|]. intros Gu WG.
  eapply returns_bind; [apply py_mul_like; eassumption|]. intros hG WhG.
  eapply returns_bind; [apply py_add_like; eassumption|]. intros g Wg.
  eapply returns_bind; [apply infix_to_pytree_like; eassumption|]. intros h1 Wh1.
  eapply returns_bind; [apply py_mul_like; eassumption|]. intros dth1 Wdth1.
  eapply returns_bind; [apply py_add_like; eassumption|]. intros s1 Ws1.
  eapply returns_bind; [apply infix_to_pytree_aux_like; [exact HS|eassumption]|]. intros u1 Wu1.
  eapply returns_bind; [apply infix_to_pytree_like; eassumption|]. intros Fu1 WFu1.
  eapply returns_bind; [apply py_add_like; eassumption|]. intros f1 Wf1.
  eapply returns_bind; [apply py_mul_like; eassumption|]. intros h2 Wh2.
  eapply returns_bind; [apply py_mul_like; eassumption|]. intros dth2 Wdth2.
  eapply returns_bind; [apply py_add_like; eassumption|]. intros s2 Ws2.
  eapply returns_bind; [apply infix_to_pytree_aux_like; [exact HS|eassumption]|]. intros u2 Wu2.
  now apply returns_Ok.
Qed.

Lemma ok_then_weaken {A : Type} (Q Q' : A -> Prop) (m : result A) :
  (forall a, Q a -> Q' a) -> ok_then Q m -> ok_then Q' m.
Proof. destruct m as [a|e]; simpl; auto. Qed.

Lemma getitem_ok_then {A : Type} (Q : A -> Prop) (xs : list A) (i : nat) :
  Forall Q xs -> ok_then Q (getitem xs i).
Proof.
  intros H. unfold getitem. destruct (nth_error xs i) as [x|] eqn:E; simpl;
    [|exact I].
  apply nth_error_In in E. rewrite Forall_forall in H. now apply H.
Qed.

Lemma getitem_any {A : Type} (xs : list A) (i : nat) :
  ok_then (fun _ => True) (getitem xs i).
Proof. unfold getitem. destruct (nth_error xs i); exact I. Qed.

Lemma setitem_ok_then {A : Type} (Q : A -> Prop) (xs : list A) (i : nat)
  (v : A) :
  Forall Q xs -> Q v ->
  ok_then (fun ys => Forall Q ys /\ getitem ys i = Ok v) (setitem xs i v).
Proof.
  intros H Hv. revert i.
  induction H as [|x xs Hx Hxs IH]; intros i; simpl; [exact I|].
  destruct i as [|j]; simpl.
  - split; [now constructor|reflexivity].
  - specialize (IH j). destruct (setitem xs j v) as [ys|e]; simpl; [|exact I].
    destruct IH as [Hys G]. split; [now constructor|exact G].
Qed.

Lemma for_each_ok_then {S A : Type} (Inv : S -> Prop) (xs : list A)
  (body : A -> S -> result S) :
  (forall x s, Inv s -> ok_then Inv (body x s)) ->
  forall s, Inv s -> ok_then Inv (for_each xs body s).
Proof.
  intros Hbody. induction xs as [|x xs IH]; intros s Hs; simpl; [exact Hs|].
  eapply ok_then_bind; [now apply Hbody|]. intros s' Hs'. now apply IH.
Qed.

Lemma genexp_ok_then {A B : Type} (Q : B -> Prop) (js : list A)
  (f : A -> result (option B)) :
  (forall j, ok_then (fun o => match o with Some t => Q t | None => True end)
               (f j)) ->
  ok_then (Forall Q) (genexp js f).
Proof.
  intros Hf. induction js as [|j js IH]; simpl; [constructor|].
  eapply ok_then_bind; [apply Hf|]. intros o Ho.
  eapply ok_then_bind; [apply IH|]. intros rest Hrest.
  destruct o; simpl; [constructor|]; auto.
Qed.

Lemma wrapped_is_seed (d : treedef) (v : val K) :
  wrapped_like d v -> seed_or_wrapped d v.
Proof. destruct v; simpl; auto. Qed.

Lemma low_storage_stage_like (d : treedef) (alphas betas gammas : list K)
  (equation : ImplicitExplicitODE K) (dt : K) (k : nat) (h u : val K) :
  imex_preserves_structure equation ->
  seed_or_wrapped d h -> wrapped_like d u ->
  ok_then (fun hu => seed_or_wrapped d (fst hu) /\ wrapped_like d (snd hu))
    (low_storage_stage alphas betas gammas equation dt k (h, u)).
Proof.
  intros (HF & HG & HS) Hh Hu. unfold low_storage_stage.
  eapply ok_then_bind;
    [apply returns_ok_then, infix_to_pytree_like; eassumption|]. intros Fu WFu.
  eapply ok_then_bind; [apply getitem_any|]. intros bk _.
  eapply ok_then_bind; [apply returns_ok_then, py_mul_seed; eassumption|].
  intros bh Wbh.
  eapply ok_then_bind; [apply returns_ok_then, py_add_seed; eassumption|].
  intros h' Wh'.
  eapply ok_then_bind; [apply getitem_any|]. intros a1 _.
  eapply ok_then_bind; [apply getitem_any|]. intros a0 _.
  eapply ok_then_bind; [apply getitem_any|]. intros gk _.
  eapply ok_then_bind; [apply returns_ok_then, py_mul_like; eassumption|].
  intros gh Wgh.
  eapply ok_then_bind; [apply returns_ok_then, py_add_like; eassumption|].
  intros s Ws.
  eapply ok_then_bind;
    [apply returns_ok_then, infix_to_pytree_like; eassumption|]. intros Gu WGu.
  eapply ok_then_bind; [apply returns_ok_then, py_mul_like; eassumption|].
  intros mG WmG.
  eapply ok_then_bind; [apply returns_ok_then, py_add_like; eassumption|].
  intros s' Ws'.
  eapply ok_then_bind;
    [apply returns_ok_then, infix_to_pytree_aux_like; [exact HS|eassumption]|].
  intros u' Wu'. simpl. split; [now apply wrapped_is_seed|exact Wu'].
Qed.

Lemma low_storage_step_structure (alphas betas gammas : list K)
  (equation : ImplicitExplicitODE K) (dt : K) (u : pytree K) :
  imex_preserves_structure equation ->
  ok_then (fun v => structure v = structure u)
    (low_storage_step_fn alphas betas gammas equation dt u).
Proof.
  intros Hp. set (d := structure u).
  unfold low_storage_step_fn, _pytree_to_infix.
  eapply ok_then_bind;
    [|intros r Wr; apply returns_ok_then, get_pytree_like; exact Wr].
  eapply ok_then_bind.
  - apply (for_each_ok_then
             (fun hu => seed_or_wrapped d (fst hu) /\ wrapped_like d (snd hu))).
    + intros k [h u'] [Hh Hu]. now apply low_storage_stage_like.
    + split; [exact I|reflexivity].
  - intros [h u'] [_ Hu]. exact Hu.
Qed.

Lemma pytree_to_vector_fun_like (d : treedef) (f : pytree K -> pytree K)
  (x : val K) :
  preserves_structure f -> wrapped_like d x ->
  returns (wrapped_like d) (tree_math.pytree_to_vector_fun f x).
Proof. exact (infix_to_pytree_like d f x). Qed.

Lemma stage_value_like (d : treedef) (slots : list (option (val K)))
  (j : nat) :
  Forall (slot_like d) slots -> ok_then (wrapped_like d) (stage_value slots j).
Proof.
  intros H. unfold stage_value.
  eapply ok_then_bind; [apply getitem_ok_then; eassumption|].
  intros [v|] Hv; simpl; auto.
Qed.

Lemma weighted_terms_like (d : treedef) (c : result (list K))
  (k : list (option (val K))) (n : nat) :
  Forall (slot_like d) k ->
  ok_then (Forall (wrapped_like d)) (weighted_terms c k n).
Proof.
  intros Hk. unfold weighted_terms. apply genexp_ok_then. intros j.
  destruct c as [row|e]; simpl; [|exact I].
  destruct (getitem row j) as [cj|e]; simpl; [|exact I].
  destruct (truthy cj); simpl; [|exact I].
  eapply ok_then_bind; [apply stage_value_like; eassumption|]. intros kj Wkj.
  eapply ok_then_bind; [apply returns_ok_then, py_mul_like; eassumption|].
  intros t Wt. exact Wt.
Qed.

Lemma sum_like (d : treedef) (xs : list (val K)) :
  Forall (wrapped_like d) xs -> ok_then (wrapped_like d) (_sum xs).
Proof.
  intros H. destruct H as [|x xs Hx Hxs]; simpl; [exact I|].
  revert x Hx. induction Hxs as [|y ys Hy _ IH]; intros x Hx; simpl;
    [exact Hx|].
  eapply ok_then_bind; [apply returns_ok_then, py_add_like; eassumption|].
  intros r Wr. now apply IH.
Qed.

(** What [u0 + dt * _sum(terms)] followed by [P] yields. *)
Lemma combination_like (d : treedef) (P : pytree K -> pytree K) (dt : K)
  (u0 : val K) (terms : list (val K)) :
  preserves_structure P -> wrapped_like d u0 ->
  Forall (wrapped_like d) terms ->
  ok_then (wrapped_like d)
    (s <- _sum terms ;;
     ds <- py_mul (VNum dt) s ;;
     u_star <- py_add u0 ds ;;
     tree_math.pytree_to_vector_fun P u_star).
Proof.
  intros HP Hu0 Hterms.
  eapply ok_then_bind; [apply sum_like; eassumption|]. intros s Ws.
  eapply ok_then_bind; [apply returns_ok_then, py_mul_like; eassumption|].
  intros ds Wds.
  eapply ok_then_bind; [apply returns_ok_then, py_add_like; eassumption|].
  intros u_star Wu.
  apply returns_ok_then, pytree_to_vector_fun_like; assumption.
Qed.

Lemma rk_stage_like (d : treedef) (a : list (list K))
  (F P : pytree K -> pytree K) (dt : K) (u0 : val K) (i : nat)
  (u k : list (option (val K))) :
  preserves_structure F -> preserves_structure P ->
  wrapped_like d u0 -> Forall (slot_like d) u -> Forall (slot_like d) k ->
  ok_then (fun uk => Forall (slot_like d) (fst uk)
                     /\ Forall (slot_like d) (snd uk))
    (rk_stage a (tree_math.pytree_to_vector_fun F)
       (tree_math.pytree_to_vector_fun P) dt u0 i (u, k)).
Proof.
  intros HF HP Hu0 Hu Hk. unfold rk_stage.
  eapply ok_then_bind; [apply weighted_terms_like; eassumption|].
  intros terms Wterms.
  pose proof (combination_like d P dt u0 terms HP Hu0 Wterms) as C.
  destruct (_sum terms) as [s|e]; cbn [bind ok_then] in *; [|exact I].
  destruct (py_mul (VNum dt) s) as [ds|e]; cbn [bind ok_then] in *; [|exact I].
  destruct (py_add u0 ds) as [u_star|e]; cbn [bind ok_then] in *; [|exact I].
  destruct (tree_math.pytree_to_vector_fun P u_star) as [ui|e];
    cbn [bind ok_then] in *; [|exact I].
  eapply ok_then_bind; [apply (setitem_ok_then (slot_like d)); assumption|].
  intros u' [Hu' G]. unfold stage_value. rewrite G. cbn [bind].
  eapply ok_then_bind;
    [apply returns_ok_then, pytree_to_vector_fun_like; eassumption|].
  intros ki Wki.
  eapply ok_then_bind; [apply (setitem_ok_then (slot_like d)); assumption|].
  intros k' [Hk' _]. cbn [ok_then fst snd]. now split.
Qed.

Lemma repeat_None_like (d : treedef) (n : nat) :
  Forall (slot_like (K:=K) d) (repeat None n).
Proof. induction n; simpl; constructor; auto. exact I. Qed.

Lemma rk_step_structure (a : list (list K)) (b : list K)
  (equation : ExplicitNavierStokesODE K) (dt : K) (u0 : pytree K) :
  explicit_preserves_structure equation ->
  ok_then (fun v => structure v = structure u0) (rk_step_fn a b equation dt u0).
Proof.
  intros [HF HP]. set (d := structure u0).
  assert (W : wrapped_like d (VWrap u0)) by reflexivity.
  unfold rk_step_fn, tree_math.vector_to_pytree_fun.
  eapply ok_then_bind;
    [|intros r Wr; apply returns_ok_then, get_pytree_like; exact Wr].
  eapply ok_then_bind.
  { apply (setitem_ok_then (slot_like d));
      [apply repeat_None_like|exact W]. }
  intros u [Hu _].
  eapply ok_then_bind;
    [apply returns_ok_then, pytree_to_vector_fun_like; eassumption|].
  intros k0 Wk0.
  eapply ok_then_bind.
  { apply (setitem_ok_then (slot_like d));
      [apply repeat_None_like|exact Wk0]. }
  intros k [Hk _].
  eapply ok_then_bind.
  { apply (for_each_ok_then
             (fun uk => Forall (slot_like d) (fst uk)
                        /\ Forall (slot_like d) (snd uk))).
    - intros i [u' k'] [Hu' Hk']. now apply rk_stage_like.
    - now split. }
  intros [u' k'] [Hu' Hk']. cbn [snd].
  eapply ok_then_bind; [apply weighted_terms_like; eassumption|].
  intros terms Wterms.
  pose proof (combination_like d (pressure_projection equation) dt (VWrap u0)
                terms HP W Wterms) as C.
  destruct (_sum terms) as [s|e]; cbn [bind ok_then] in *; [|exact I].
  destruct (py_mul (VNum dt) s) as [ds|e]; cbn [bind ok_then] in *; [|exact I].
  destruct (py_add (VWrap u0) ds) as [u_star|e]; cbn [bind ok_then] in *; [|exact I].
  destruct (tree_math.pytree_to_vector_fun (pressure_projection equation)
              u_star) as [uf|e]; cbn [bind ok_then] in *; [|exact I].
  exact C.
Qed.

End StructureClaims.

(** C9.  The wrapper is a transparent view ([unwrap (wrap s) = s]); adding
    two wrapped states of one structure, and adding or multiplying a wrapped
    state and a scalar, succeed and keep the structure (names, order and leaf
    shapes); and when the functions of the equation keep the structure of
    their argument, so does every stepper: [backward_forward_euler] and
    [crank_nicolson_rk2] return a state of the structure of their input, and
    whatever state a low-storage or explicit Runge-Kutta stepper returns has
    the structure of its input. *)
Theorem steppers_preserve_structure {K : Type} {SK : Scalar K}
  (explicit_equation : ExplicitNavierStokesODE K)
  (imex_equation : ImplicitExplicitODE K) (dt : K) (u : pytree K) :
  explicit_preserves_structure explicit_equation ->
  imex_preserves_structure imex_equation ->
  (forall s : pytree K,
      _pytree_to_infix (fun w => Ok w) s = Ok s
      /\ tree_math.vector_to_pytree_fun (fun w => Ok w) s = Ok s)
  /\ (forall s t : pytree K,
         structure s = structure t ->
         exists r, py_add (VWrap s) (VWrap t) = Ok (VWrap r)
                   /\ structure r = structure s)
  /\ (forall (s : pytree K) (c : K),
         exists r r',
           py_add (VWrap s) (VNum c) = Ok (VWrap r)
           /\ py_add (VNum c) (VWrap s) = Ok (VWrap r')
           /\ structure r = structure s /\ structure r' = structure s)
  /\ (forall (s : pytree K) (c : K),
         exists r r',
           py_mul (VWrap s) (VNum c) = Ok (VWrap r)
           /\ py_mul (VNum c) (VWrap s) = Ok (VWrap r')
           /\ structure r = structure s /\ structure r' = structure s)
  /\ (exists v, backward_forward_euler imex_equation dt u = Ok v
                /\ structure v = structure u)
  /\ (exists v, crank_nicolson_rk2 imex_equation dt u = Ok v
                /\ structure v = structure u)
  /\ (forall alphas betas gammas step v,
         low_storage_runge_kutta_crank_nicolson alphas betas gammas
           imex_equation dt = Ok step ->
         step u = Ok v -> structure v = structure u)
  /\ (forall a b step v,
         navier_stokes_rk a b explicit_equation dt = Ok step ->
         step u = Ok v -> structure v = structure u).
Proof.
  intros HE HI. repeat split.
  - intros s t Hst. exists (vadd s t). split.
    + now apply py_add_wrapped.
    + now apply structure_vadd.
  - intros s c. do 2 eexists. repeat split;
      apply structure_tree_map; intros x; apply length_map.
  - intros s c. do 2 eexists. repeat split;
      apply structure_tree_map; intros x; apply length_map.
  - now apply backward_forward_euler_structure.
  - now apply crank_nicolson_rk2_structure.
  - intros alphas betas gammas step v Hc Hs.
    unfold low_storage_runge_kutta_crank_nicolson in Hc.
    destruct (rk_coefficients_rejected alphas betas gammas); [discriminate|].
    injection Hc as <-.
    exact (ok_then_elim _ _ v
             (low_storage_step_structure alphas betas gammas imex_equation dt
                u HI) Hs).
  - intros a b step v Hc Hs. unfold navier_stokes_rk in Hc.
    destruct (negb _); [discriminate|]. injection Hc as <-.
    exact (ok_then_elim _ _ v
             (rk_step_structure a b explicit_equation dt u HE) Hs).
Qed.

Lemma steppers_preserve_structure_witness :
  (exists v,
      crank_nicolson_rk2 (split_equation (K:=Qc)) (frac 1 10)
        (two_fields [1%K; frac 3 1] [frac 2 1]) = Ok v
      /\ structure v = structure (two_fields [1%K; frac 3 1] [frac 2 1]))
  /\ (forall a b step v,
         navier_stokes_rk a b (growth_equation (K:=Qc)) (frac 1 10) = Ok step ->
         step (two_fields [1%K; frac 3 1] [frac 2 1]) = Ok v ->
         structure v = structure (two_fields [1%K; frac 3 1] [frac 2 1])).
Proof.
  pose proof (steppers_preserve_structure (K:=Qc) growth_equation
                split_equation (frac 1 10)
                (two_fields [1%K; frac 3 1] [frac 2 1])) as H.
  destruct H as (_ & _ & _ & _ & _ & H2 & _ & H4).
  - split; intros x; reflexivity.
  - repeat split.
  - split; assumption.
Defined.

(** ** More on the explicit family *)

Section ExplicitExtras.
Context {K : Type} {SK : Scalar K}.

Add Field Kfield_explicit_extras : K_field.

Lemma smul_one (t : pytree K) : smul 1%K t = t.
Proof.
  apply tree_map_id. intros x. rewrite <- (map_id x) at 2.
  apply map_ext. intros v. ring.
Qed.

Lemma smul_zero (t : pytree K) : smul 0%K t = zeros_like t.
Proof.
  apply tree_map_ext. intros x. apply map_ext. intros v. ring.
Qed.

Lemma truthy_false_zero (c : K) : truthy c = false -> c = 0%K.
Proof.
  unfold truthy. rewrite negb_false_iff. apply Keqb_eq.
Qed.

(** Skipping the zero coefficients does not change a weighted sum. *)
Lemma fold_vadd_skip_zeros (d : treedef) (pairs : list (K * pytree K)) :
  Forall (fun p => structure (snd p) = d) pairs ->
  forall acc, structure acc = d ->
    fold_left vadd
      (map (fun p => smul (fst p) (snd p))
         (filter (fun p => truthy (fst p)) pairs)) acc
    = fold_left vadd (map (fun p => smul (fst p) (snd p)) pairs) acc.
Proof.
  induction 1 as [|[c t] pairs Ht Hpairs IH]; intros acc Hacc; [reflexivity|].
  cbn [filter map fold_left fst snd]. simpl in Ht.
  destruct (truthy c) eqn:E; cbn [map fold_left fst snd].
  - apply IH. rewrite structure_vadd; [exact Hacc|].
    rewrite structure_smul. congruence.
  - apply truthy_false_zero in E. subst c.
    rewrite smul_zero, vadd_zeros_r by congruence. now apply IH.
Qed.

Lemma weighted_sum_all_terms (u0 : pytree K) (c : list K)
  (ks : list (pytree K)) :
  Forall (fun t => structure t = structure u0) ks ->
  weighted_sum (zeros_like u0) c ks = weighted_sum_all (zeros_like u0) c ks.
Proof.
  intros H. unfold weighted_sum, weighted_sum_all.
  apply (fold_vadd_skip_zeros (structure u0)).
  - revert c. induction H as [|t ks Ht _ IH]; intros [|x c]; simpl;
      constructor; auto.
  - apply structure_zeros_like.
Qed.

Lemma rk_stage_derivatives_all_eq (a : list (list K))
  (equation : ExplicitNavierStokesODE K) (dt : K) (u0 : pytree K) (i : nat) :
  explicit_preserves_structure equation ->
  rk_stage_derivatives_all a (rhs_explicit_terms equation)
    (pressure_projection equation) dt u0 i
  = rk_stage_derivatives a (rhs_explicit_terms equation)
      (pressure_projection equation) dt u0 i.
Proof.
  intros [HF HP]. induction i as [|i IH]; [reflexivity|].
  cbn [rk_stage_derivatives_all rk_stage_derivatives]. rewrite IH.
  rewrite weighted_sum_all_terms; [reflexivity|].
  now apply rk_stage_derivatives_structure.
Qed.

Lemma rk_formula_all_eq (a : list (list K)) (b : list K)
  (equation : ExplicitNavierStokesODE K) (dt : K) (u0 : pytree K) :
  explicit_preserves_structure equation ->
  rk_formula_all a b equation dt u0 = rk_formula a b equation dt u0.
Proof.
  intros Hp. unfold rk_formula_all, rk_formula.
  rewrite rk_stage_derivatives_all_eq by exact Hp.
  rewrite weighted_sum_all_terms; [reflexivity|].
  destruct Hp as [HF HP]. now apply rk_stage_derivatives_structure.
Qed.

(** X1.  Skipping zero coefficients is only an optimisation: on a tableau
    whose stages each have a nonzero coefficient, the step returns the value
    of the stage formulas with every term of every weighted sum included. *)
Theorem rk_step_sums_all_terms (a : list (list K)) (b : list K)
  (equation : ExplicitNavierStokesODE K) (dt : K) (u0 : pytree K) :
  List.length a + 1 = List.length b ->
  tableau_usable a b = true ->
  explicit_preserves_structure equation ->
  exists step,
    navier_stokes_rk a b equation dt = Ok step
    /\ step u0 = Ok (rk_formula_all a b equation dt u0).
Proof.
  intros Hlen Huse Hp. exists (rk_step_fn a b equation dt). split.
  - now apply navier_stokes_rk_accepts.
  - rewrite rk_formula_all_eq by exact Hp. destruct Hp as [HF HP].
    now apply rk_step_fn_formula.
Qed.

(** Structure side conditions. *)
Ltac solve_structure :=
  repeat first
    [ rewrite structure_smul
    | rewrite structure_zeros_like
    | match goal with
      | H : preserves_structure _ |- _ => rewrite H
      end
    | rewrite structure_vadd by solve_structure ];
  reflexivity.

(** Evaluate the stage formulas of a preset tableau. *)
Ltac preset_formula :=
  unfold rk_formula;
  cbn [List.length Nat.sub rk_stage_derivatives nth app];
  unfold weighted_sum;
  cbn [combine filter map fold_left fst snd];
  rewrite ?truthy_zero, ?truthy_one, ?truthy_frac by discriminate;
  cbn [map fold_left fst snd];
  rewrite ?smul_one;
  repeat rewrite vadd_zeros_l by solve_structure.

Lemma forward_euler_formula_eq (equation : ExplicitNavierStokesODE K)
  (dt : K) (u0 : pytree K) :
  explicit_preserves_structure equation ->
  rk_formula [] [1%K] equation dt u0 = forward_euler_formula equation dt u0.
Proof. intros [HF HP]. preset_formula. reflexivity. Qed.

Lemma midpoint_rk2_formula_eq (equation : ExplicitNavierStokesODE K)
  (dt : K) (u0 : pytree K) :
  explicit_preserves_structure equation ->
  rk_formula [[frac 1 2]] [0%K; 1%K] equation dt u0
  = midpoint_rk2_formula equation dt u0.
Proof. intros [HF HP]. preset_formula. reflexivity. Qed.

Lemma heun_rk2_formula_eq (equation : ExplicitNavierStokesODE K)
  (dt : K) (u0 : pytree K) :
  explicit_preserves_structure equation ->
  rk_formula [[1%K]] [frac 1 2; frac 1 2] equation dt u0
  = heun_rk2_formula equation dt u0.
Proof. intros [HF HP]. preset_formula. reflexivity. Qed.

Lemma classic_rk4_formula_eq (equation : ExplicitNavierStokesODE K)
  (dt : K) (u0 : pytree K) :
  explicit_preserves_structure equation ->
  rk_formula [[frac 1 2]; [0%K; frac 1 2]; [0%K; 0%K; 1%K]]
    [frac 1 6; frac 1 3; frac 1 3; frac 1 6] equation dt u0
  = classic_rk4_formula equation dt u0.
Proof. intros [HF HP]. preset_formula. reflexivity. Qed.

End ExplicitExtras.

Section ExplicitPresets.
Context {K : Type} {SK : Scalar K}.

Lemma preset_step (a : list (list K)) (b : list K)
  (equation : ExplicitNavierStokesODE K) (dt : K) (u0 v : pytree K) :
  List.length a + 1 = List.length b ->
  tableau_usable a b = true ->
  explicit_preserves_structure equation ->
  rk_formula a b equation dt u0 = v ->
  exists step, navier_stokes_rk a b equation dt = Ok step /\ step u0 = Ok v.
Proof.
  intros Hlen Huse [HF HP] <-. exists (rk_step_fn a b equation dt). split.
  - now apply navier_stokes_rk_accepts.
  - now apply rk_step_fn_formula.
Qed.

(** X2.  [forward_euler] always constructs, and its step is
    [P(u0 + dt * F(u0))]. *)
Theorem forward_euler_closed_form (equation : ExplicitNavierStokesODE K)
  (dt : K) (u0 : pytree K) :
  explicit_preserves_structure equation ->
  exists step,
    forward_euler equation dt = Ok step
    /\ step u0 = Ok (forward_euler_formula equation dt u0).
Proof.
  intros Hp. apply preset_step; try exact Hp; try reflexivity.
  - apply preset_tableaux_usable.
  - now apply forward_euler_formula_eq.
Qed.

(** X3.  [midpoint_rk2] always constructs, and its step is
    [P(u0 + dt * k1)] with [k1 = F(P(u0 + dt * (1/2 * F(u0))))]: the weight
    [b[0] = 0] drops [k0] from the final combination. *)
Theorem midpoint_rk2_closed_form (equation : ExplicitNavierStokesODE K)
  (dt : K) (u0 : pytree K) :
  explicit_preserves_structure equation ->
  exists step,
    midpoint_rk2 equation dt = Ok step
    /\ step u0 = Ok (midpoint_rk2_formula equation dt u0).
Proof.
  intros Hp. apply preset_step; try exact Hp; try reflexivity.
  - apply preset_tableaux_usable.
  - now apply midpoint_rk2_formula_eq.
Qed.

(** X4.  [heun_rk2] always constructs, and its step is
    [P(u0 + dt * (1/2 * k0 + 1/2 * k1))] with [k0 = F(u0)] and
    [k1 = F(P(u0 + dt * k0))]. *)
Theorem heun_rk2_closed_form (equation : ExplicitNavierStokesODE K)
  (dt : K) (u0 : pytree K) :
  explicit_preserves_structure equation ->
  exists step,
    heun_rk2 equation dt = Ok step
    /\ step u0 = Ok (heun_rk2_formula equation dt u0).
Proof.
  intros Hp. apply preset_step; try exact Hp; try reflexivity.
  - apply preset_tableaux_usable.
  - now apply heun_rk2_formula_eq.
Qed.

(** X5.  [classic_rk4] always constructs, and its step is
    [P(u0 + dt * (1/6 k0 + 1/3 k1 + 1/3 k2 + 1/6 k3))] with the four classic
    stages, each intermediate state projected before [F] is evaluated. *)
Theorem classic_rk4_closed_form (equation : ExplicitNavierStokesODE K)
  (dt : K) (u0 : pytree K) :
  explicit_preserves_structure equation ->
  exists step,
    classic_rk4 equation dt = Ok step
    /\ step u0 = Ok (classic_rk4_formula equation dt u0).
Proof.
  intros Hp. apply preset_step; try exact Hp; try reflexivity.
  - apply preset_tableaux_usable.
  - now apply classic_rk4_formula_eq.
Qed.

Lemma ok_then_True {A : Type} (m : result A) : ok_then (fun _ => True) m.
Proof. destruct m; exact I. Qed.

Lemma rk_step_projected (a : list (list K)) (b : list K)
  (equation : ExplicitNavierStokesODE K) (dt : K) (u : pytree K) :
  ok_then (fun v => exists x, v = pressure_projection equation x)
    (rk_step_fn a b equation dt u).
Proof.
  unfold rk_step_fn, tree_math.vector_to_pytree_fun.
  apply ok_then_bind
    with (R := fun r => exists x, r = VWrap (pressure_projection equation x));
    [|intros r [x ->]; simpl; eauto].
  do 8 (eapply ok_then_bind; [apply ok_then_True|intros ? _]).
  eapply ok_then_bind; [|intros r Hr; exact Hr].
  match goal with
  | |- ok_then _ (tree_math.pytree_to_vector_fun _ ?w) => destruct w as [c|t]
  end; simpl; [exact I|eauto].
Qed.

(** X6.  Whatever state a step of [navier_stokes_rk] returns is a value of
    [pressure_projection]; when the projection is idempotent, the returned
    state is one of its fixed points. *)
Theorem rk_step_output_is_projected (a : list (list K)) (b : list K)
  (equation : ExplicitNavierStokesODE K) (dt : K)
  (step : TimeStepFn K) (u v : pytree K) :
  navier_stokes_rk a b equation dt = Ok step ->
  step u = Ok v ->
  (exists x, v = pressure_projection equation x)
  /\ ((forall x, pressure_projection equation (pressure_projection equation x)
                 = pressure_projection equation x) ->
      pressure_projection equation v = v).
Proof.
  intros Hc Hs. unfold navier_stokes_rk in Hc.
  destruct (negb _); [discriminate|]. injection Hc as <-.
  pose proof (ok_then_elim _ _ v (rk_step_projected a b equation dt u) Hs)
    as [x ->].
  split; [now exists x|]. intros Hidem. apply Hidem.
Qed.

Lemma weighted_sum_structure (u0 : pytree K) (c : list K)
  (ks : list (pytree K)) :
  Forall (fun t => structure t = structure u0) ks ->
  structure (weighted_sum (zeros_like u0) c ks) = structure u0.
Proof.
  intros H. rewrite weighted_sum_terms, fold_vadd_structure.
  - apply structure_zeros_like.
  - rewrite structure_zeros_like. now apply terms_of_structure.
Qed.

(** X7.  With [time_step = 0] a step of [navier_stokes_rk] returns
    [pressure_projection(u0)]. *)
Theorem rk_step_zero_time_step (a : list (list K)) (b : list K)
  (equation : ExplicitNavierStokesODE K) (u0 : pytree K) :
  List.length a + 1 = List.length b ->
  tableau_usable a b = true ->
  explicit_preserves_structure equation ->
  exists step,
    navier_stokes_rk a b equation 0%K = Ok step
    /\ step u0 = Ok (pressure_projection equation u0).
Proof.
  intros Hlen Huse Hp. apply preset_step; try assumption.
  destruct Hp as [HF HP]. unfold rk_formula.
  rewrite smul_zero, vadd_zeros_r; [reflexivity|].
  symmetry. apply weighted_sum_structure.
  now apply rk_stage_derivatives_structure.
Qed.

End ExplicitPresets.

Lemma rk_step_sums_all_terms_witness :
  exists step,
    navier_stokes_rk [[frac 1 2]] [0%K; 1%K] (growth_equation (K:=Qc))
      (frac 1 10) = Ok step
    /\ step (two_fields [1%K; frac 3 1] [frac 2 1])
       = Ok (rk_formula_all [[frac 1 2]] [0%K; 1%K] growth_equation
               (frac 1 10) (two_fields [1%K; frac 3 1] [frac 2 1])).
Proof.
  apply (rk_step_sums_all_terms (K:=Qc)).
  - reflexivity.
  - vm_compute. reflexivity.
  - split; intros x; reflexivity.
Defined.

Lemma forward_euler_closed_form_witness :
  exists step,
    forward_euler (growth_equation (K:=Qc)) (frac 1 10) = Ok step
    /\ step (two_fields [1%K; frac 3 1] [frac 2 1])
       = Ok (forward_euler_formula growth_equation (frac 1 10)
               (two_fields [1%K; frac 3 1] [frac 2 1])).
Proof.
  apply (forward_euler_closed_form (K:=Qc)). split; intros x; reflexivity.
Defined.

Lemma midpoint_rk2_closed_form_witness :
  exists step,
    midpoint_rk2 (growth_equation (K:=Qc)) (frac 1 10) = Ok step
    /\ step (two_fields [1%K; frac 3 1] [frac 2 1])
       = Ok (midpoint_rk2_formula growth_equation (frac 1 10)
               (two_fields [1%K; frac 3 1] [frac 2 1])).
Proof.
  apply (midpoint_rk2_closed_form (K:=Qc)). split; intros x; reflexivity.
Defined.

Lemma heun_rk2_closed_form_witness :
  exists step,
    heun_rk2 (growth_equation (K:=Qc)) (frac 1 10) = Ok step
    /\ step (two_fields [1%K; frac 3 1] [frac 2 1])
       = Ok (heun_rk2_formula growth_equation (frac 1 10)
               (two_fields [1%K; frac 3 1] [frac 2 1])).
Proof.
  apply (heun_rk2_closed_form (K:=Qc)). split; intros x; reflexivity.
Defined.

Lemma classic_rk4_closed_form_witness :
  exists step,
    classic_rk4 (growth_equation (K:=Qc)) (frac 1 10) = Ok step
    /\ step (two_fields [1%K; frac 3 1] [frac 2 1])
       = Ok (classic_rk4_formula growth_equation (frac 1 10)
               (two_fields [1%K; frac 3 1] [frac 2 1])).
Proof.
  apply (classic_rk4_closed_form (K:=Qc)). split; intros x; reflexivity.
Defined.

Lemma rk_step_output_is_projected_witness :
  (exists x, two_fields [1%K; frac 3 1] [frac 2 1]
             = pressure_projection (still_equation (K:=Qc)) x)
  /\ ((forall x, pressure_projection (still_equation (K:=Qc))
                   (pressure_projection still_equation x)
                 = pressure_projection still_equation x) ->
      pressure_projection (still_equation (K:=Qc))
        (two_fields [1%K; frac 3 1] [frac 2 1])
      = two_fields [1%K; frac 3 1] [frac 2 1]).
Proof.
  apply (rk_step_output_is_projected (K:=Qc) [[1%K]] [frac 1 2; frac 1 2]
           still_equation (frac 1 10)
           (rk_step_fn [[1%K]] [frac 1 2; frac 1 2] still_equation (frac 1 10))
           (two_fields [1%K; frac 3 1] [frac 2 1])).
  - reflexivity.
  - rewrite rk_step_fn_formula.
    + rewrite rk_formula_still; [reflexivity|].
      split; intros x; reflexivity.
    + intros x. apply structure_zeros_like.
    + intros x. reflexivity.
    + reflexivity.
    + vm_compute. reflexivity.
Defined.

Lemma rk_step_zero_time_step_witness :
  exists step,
    navier_stokes_rk [[1%K]] [frac 1 2; frac 1 2] (growth_equation (K:=Qc)) 0%K
    = Ok step
    /\ step (two_fields [1%K; frac 3 1] [frac 2 1])
       = Ok (pressure_projection growth_equation
               (two_fields [1%K; frac 3 1] [frac 2 1])).
Proof.
  apply (rk_step_zero_time_step (K:=Qc)).
  - reflexivity.
  - vm_compute. reflexivity.
  - split; intros x; reflexivity.
Defined.

(** ** More on the implicit-explicit family *)

Section ImexExtras.
Context {K : Type} {SK : Scalar K}.

Lemma imex_preserves_solve (equation : ImplicitExplicitODE K) :
  imex_preserves_structure equation ->
  forall x h, structure (implicit_solve equation x h) = structure x.
Proof. intros (_ & _ & HS) x h. exact (HS h x). Qed.

(** Structure side conditions. *)
Ltac solve_structure :=
  repeat first
    [ rewrite structure_smul
    | rewrite structure_zeros_like
    | match goal with
      | H : preserves_structure _ |- _ => rewrite H
      | H : forall x h, structure (_ x h) = structure x |- _ => rewrite H
      end
    | rewrite structure_vadd by solve_structure ];
  first [reflexivity | congruence].

(** Evaluate the wrapper arithmetic of a step on states of one structure. *)
Ltac imex_arith :=
  repeat first
    [ rewrite bind_Ok
    | rewrite py_mul_scalar_wrapped
    | rewrite py_add_wrapped by solve_structure
    | progress unfold _pytree_to_infix, _infix_to_pytree,
        _infix_to_pytree_aux
    | progress cbn [get_pytree bind] ].

Lemma backward_forward_euler_eq (equation : ImplicitExplicitODE K) (dt : K)
  (u0 : pytree K) :
  imex_preserves_structure equation ->
  backward_forward_euler equation dt u0
  = Ok (backward_forward_euler_formula equation dt u0).
Proof.
  intros Hp. pose proof (imex_preserves_solve equation Hp) as HS.
  destruct Hp as (HF & HG & _).
  unfold backward_forward_euler, backward_forward_euler_formula.
  imex_arith. reflexivity.
Qed.

Lemma crank_nicolson_rk2_eq (equation : ImplicitExplicitODE K) (dt : K)
  (u0 : pytree K) :
  imex_preserves_structure equation ->
  crank_nicolson_rk2 equation dt u0
  = Ok (crank_nicolson_rk2_formula equation dt u0).
Proof.
  intros Hp. pose proof (imex_preserves_solve equation Hp) as HS.
  destruct Hp as (HF & HG & _).
  unfold crank_nicolson_rk2, crank_nicolson_rk2_formula.
  imex_arith. reflexivity.
Qed.

(** X8.  For an equation whose functions keep the structure of the state,
    [backward_forward_euler] never raises and returns
    [G_inv(u0 + dt * F(u0), dt)], and [crank_nicolson_rk2] never raises and
    returns the corrector [G_inv(g + dt * h2, dt/2)] with
    [g = u0 + dt/2 * G(u0)], [u1 = G_inv(g + dt * F(u0), dt/2)] and
    [h2 = (F(u1) + F(u0)) / 2]. *)
Theorem imex_steps_closed_form (equation : ImplicitExplicitODE K) (dt : K)
  (u0 : pytree K) :
  imex_preserves_structure equation ->
  backward_forward_euler equation dt u0
  = Ok (backward_forward_euler_formula equation dt u0)
  /\ crank_nicolson_rk2 equation dt u0
     = Ok (crank_nicolson_rk2_formula equation dt u0).
Proof.
  intros Hp. split.
  - now apply backward_forward_euler_eq.
  - now apply crank_nicolson_rk2_eq.
Qed.

(** One stage of the low-storage loop, on a running term of the structure of
    the state. *)
Lemma low_storage_stage_eq (alphas betas gammas : list K)
  (equation : ImplicitExplicitODE K) (dt : K) (k : nat)
  (h : option (pytree K)) (u : pytree K) :
  imex_preserves_structure equation ->
  k < List.length betas -> k + 1 < List.length alphas ->
  k < List.length gammas ->
  (forall hp, h = Some hp -> structure hp = structure u) ->
  let F := explicit_terms equation in
  let G := implicit_terms equation in
  let h' := match h with
            | None => F u
            | Some hp => vadd (F u) (smul (nth k betas 0%K) hp)
            end in
  let mu := (half * dt * (nth (k + 1) alphas 0 - nth k alphas 0))%K in
  let u' := implicit_solve equation
              (vadd (vadd u (smul (nth k gammas 0 * dt)%K h')) (smul mu (G u)))
              mu in
  low_storage_stage alphas betas gammas equation dt k (running_term h, VWrap u)
  = Ok (running_term (Some h'), VWrap u')
  /\ structure h' = structure u /\ structure u' = structure u.
Proof.
  intros Hp Hb Ha Hg Hh F G h' mu u'.
  pose proof (imex_preserves_solve equation Hp) as HS.
  destruct Hp as (HF & HG & _).
  assert (Sh : structure h' = structure u).
  { subst h'. destruct h as [hp|]; [|apply HF].
    specialize (Hh hp eq_refl). unfold F. solve_structure. }
  split; [|split; [exact Sh|]].
  - unfold low_storage_stage. imex_arith.
    rewrite (getitem_nth betas k 0%K Hb), bind_Ok.
    assert (Eh : (bh <- py_mul (VNum (nth k betas 0%K)) (running_term h) ;;
                  py_add (VWrap (F u)) bh) = Ok (VWrap h')).
    { subst h'. destruct h as [hp|]; cbn [running_term].
      - specialize (Hh hp eq_refl). unfold F. imex_arith. reflexivity.
      - cbn [py_mul py_add wrapper_add bind]. f_equal. f_equal.
        apply tree_map_add_scalar_zero. apply Kmul_0_r. }
    fold F.
    destruct (py_mul (VNum (nth k betas 0%K)) (running_term h)) as [bh|e];
      [|discriminate].
    rewrite bind_Ok in Eh. rewrite bind_Ok, Eh, bind_Ok.
    rewrite (getitem_nth alphas (k + 1) 0%K Ha), bind_Ok.
    rewrite (getitem_nth alphas k 0%K) by lia. rewrite bind_Ok.
    rewrite (getitem_nth gammas k 0%K Hg), bind_Ok.
    fold mu. fold G.
    rewrite py_mul_scalar_wrapped, bind_Ok.
    rewrite py_add_wrapped by (rewrite structure_smul; congruence).
    rewrite bind_Ok, py_mul_scalar_wrapped, bind_Ok.
    rewrite py_add_wrapped.
    + rewrite bind_Ok. reflexivity.
    + rewrite structure_vadd by (rewrite structure_smul; congruence).
      unfold G. solve_structure.
  - subst u'. rewrite HS.
    rewrite structure_vadd.
    + apply structure_vadd. rewrite structure_smul. congruence.
    + rewrite structure_vadd by (rewrite structure_smul; congruence).
      unfold G. solve_structure.
Qed.

Lemma low_storage_loop_eq (alphas betas gammas : list K)
  (equation : ImplicitExplicitODE K) (dt : K) :
  imex_preserves_structure equation ->
  forall (n k : nat) (h : option (pytree K)) (u : pytree K),
    (forall j, k <= j < k + n ->
               j < List.length betas /\ j + 1 < List.length alphas
               /\ j < List.length gammas) ->
    (forall hp, h = Some hp -> structure hp = structure u) ->
    let r := low_storage_stages alphas betas gammas equation dt k n h u in
    for_each (seq k n) (low_storage_stage alphas betas gammas equation dt)
      (running_term h, VWrap u)
    = Ok (running_term (fst r), VWrap (snd r))
    /\ structure (snd r) = structure u
    /\ (forall hp, fst r = Some hp -> structure hp = structure u).
Proof.
  intros Hp. induction n as [|n IH]; intros k h u Hidx Hh.
  - cbn. repeat split. exact Hh.
  - destruct (Hidx k) as (Hb & Ha & Hg); [lia|].
    pose proof (low_storage_stage_eq alphas betas gammas equation dt k h u
                  Hp Hb Ha Hg Hh) as L.
    cbv zeta in L. destruct L as (E & Sh & Su).
    cbn [seq for_each low_storage_stages]. cbv zeta. rewrite E, bind_Ok.
    match type of E with
    | _ = Ok (running_term (Some ?h'), VWrap ?u') =>
        destruct (IH (S k) (Some h') u') as (E' & Su' & Sh')
    end.
    + intros j Hj. apply Hidx. lia.
    + intros hp Hhp. injection Hhp as <-. rewrite Sh. symmetry. exact Su.
    + cbv zeta in E', Su', Sh'. rewrite E'. repeat split.
      * now rewrite Su'.
      * intros hp Hhp. rewrite (Sh' hp Hhp). exact Su.
Qed.

(** X9.  When the coefficient lists are long enough for every stage
    ([len(alphas) >= len(betas) + 1], [len(gammas) >= len(betas)]) and the
    equation keeps the structure of the state, a low-storage step never
    raises: it returns the result of the stages
    [h = F(u) + beta[k] * h], [mu = dt/2 * (alpha[k+1] - alpha[k])],
    [u = G_inv(u + gamma[k] * dt * h + mu * G(u), mu)], the first of which
    takes [h = F(u)]. *)
Theorem low_storage_closed_form (alphas betas gammas : list K)
  (equation : ImplicitExplicitODE K) (dt : K) (step : TimeStepFn K)
  (u : pytree K) :
  imex_preserves_structure equation ->
  List.length betas + 1 <= List.length alphas ->
  List.length betas <= List.length gammas ->
  low_storage_runge_kutta_crank_nicolson alphas betas gammas equation dt
  = Ok step ->
  step u = Ok (low_storage_formula alphas betas gammas equation dt u).
Proof.
  intros Hp Ha Hg Hc. unfold low_storage_runge_kutta_crank_nicolson in Hc.
  destruct (rk_coefficients_rejected alphas betas gammas); [discriminate|].
  injection Hc as <-.
  destruct (low_storage_loop_eq alphas betas gammas equation dt Hp
              (List.length betas) 0 None u) as (E & _ & _).
  - intros j Hj. lia.
  - intros hp Hhp. discriminate.
  - unfold low_storage_step_fn, _pytree_to_infix, range, low_storage_formula.
    cbn [running_term] in E. rewrite E. reflexivity.
Qed.

Lemma getitem_out_of_range {A : Type} (xs : list A) (i : nat) :
  List.length xs <= i -> getitem xs i = Raise IndexError.
Proof.
  intros H. unfold getitem.
  apply nth_error_None in H. now rewrite H.
Qed.

End ImexExtras.

(** Structure side conditions, and the wrapper arithmetic of a step on
    states of one structure. *)
Ltac solve_structure :=
  repeat first
    [ rewrite structure_smul
    | rewrite structure_zeros_like
    | match goal with
      | H : preserves_structure _ |- _ => rewrite H
      | H : forall x h, structure (_ x h) = structure x |- _ => rewrite H
      end
    | rewrite structure_vadd by solve_structure ];
  first [reflexivity | congruence].

Ltac imex_arith :=
  repeat first
    [ rewrite bind_Ok
    | rewrite py_mul_scalar_wrapped
    | rewrite py_add_wrapped by solve_structure
    | progress unfold _pytree_to_infix, _infix_to_pytree,
        _infix_to_pytree_aux
    | progress cbn [get_pytree bind] ].

Section LowStorageErrors.
Context {K : Type} {SK : Scalar K}.

Lemma low_storage_step_fn_eq (alphas betas gammas : list K)
  (equation : ImplicitExplicitODE K) (dt : K) (u : pytree K) :
  imex_preserves_structure equation ->
  List.length betas + 1 <= List.length alphas ->
  List.length betas <= List.length gammas ->
  low_storage_step_fn alphas betas gammas equation dt u
  = Ok (low_storage_formula alphas betas gammas equation dt u).
Proof.
  intros Hp Ha Hg.
  destruct (low_storage_loop_eq alphas betas gammas equation dt Hp
              (List.length betas) 0 None u) as (E & _ & _).
  - intros j Hj. lia.
  - intros hp Hhp. discriminate.
  - unfold low_storage_step_fn, _pytree_to_infix, range, low_storage_formula.
    cbn [running_term] in E. rewrite E. reflexivity.
Qed.

(** The update [h = F(u) + beta * h] of the running term. *)
Lemma running_term_update (b : K) (h : option (pytree K)) (Fu : pytree K) :
  (forall hp, h = Some hp -> structure hp = structure Fu) ->
  exists h',
    (bh <- py_mul (VNum b) (running_term h) ;; py_add (VWrap Fu) bh)
    = Ok (VWrap h').
Proof.
  intros Hh. destruct h as [hp|]; cbn [running_term].
  - specialize (Hh hp eq_refl). imex_arith. eauto.
  - cbn [py_mul py_add wrapper_add bind]. eauto.
Qed.

(** A stage that reads past the end of [alphas] or [gammas]. *)
Lemma low_storage_stage_index_error (alphas betas gammas : list K)
  (equation : ImplicitExplicitODE K) (dt : K) (m : nat)
  (h : option (pytree K)) (u : pytree K) :
  imex_preserves_structure equation ->
  m < List.length betas ->
  List.length alphas <= m + 1 \/ List.length gammas <= m ->
  (forall hp, h = Some hp -> structure hp = structure u) ->
  low_storage_stage alphas betas gammas equation dt m (running_term h, VWrap u)
  = Raise IndexError.
Proof.
  intros (HF & HG & HS) Hb Hshort Hh.
  unfold low_storage_stage. imex_arith.
  rewrite (getitem_nth betas m 0%K Hb), bind_Ok.
  destruct (running_term_update (nth m betas 0%K) h (explicit_terms equation u))
    as [h' Eh].
  { intros hp Hhp. rewrite (Hh hp Hhp). symmetry. apply HF. }
  destruct (py_mul (VNum (nth m betas 0%K)) (running_term h)) as [bh|e];
    [|discriminate].
  rewrite bind_Ok in Eh. rewrite bind_Ok, Eh, bind_Ok.
  destruct (Nat.le_gt_cases (List.length alphas) (m + 1)) as [Ha|Ha].
  - now rewrite (getitem_out_of_range alphas (m + 1) Ha).
  - rewrite (getitem_nth alphas (m + 1) 0%K Ha), bind_Ok.
    rewrite (getitem_nth alphas m 0%K) by lia. rewrite bind_Ok.
    rewrite (getitem_out_of_range gammas m) by lia. reflexivity.
Qed.

(** X10.  Coefficient lists that the construction test lets through although
    [gammas] is shorter than [betas], or [alphas] no longer than [betas],
    give a stepper that raises [IndexError] on every state. *)
Theorem low_storage_short_lists_raise (alphas betas gammas : list K)
  (equation : ImplicitExplicitODE K) (dt : K) (step : TimeStepFn K)
  (u : pytree K) :
  imex_preserves_structure equation ->
  0 < List.length betas ->
  List.length gammas < List.length betas
  \/ List.length alphas <= List.length betas ->
  low_storage_runge_kutta_crank_nicolson alphas betas gammas equation dt
  = Ok step ->
  step u = Raise IndexError.
Proof.
  intros Hp Hpos Hshort Hc.
  unfold low_storage_runge_kutta_crank_nicolson in Hc.
  destruct (rk_coefficients_rejected alphas betas gammas); [discriminate|].
  injection Hc as <-.
  set (m := Nat.min (List.length alphas - 1) (List.length gammas)).
  assert (Hm : m < List.length betas) by (unfold m; lia).
  destruct (low_storage_loop_eq alphas betas gammas equation dt Hp m 0 None u)
    as (E & Su & Sh).
  { intros j Hj. unfold m in Hj. lia. }
  { intros hp Hhp. discriminate. }
  unfold low_storage_step_fn, _pytree_to_infix, range.
  replace (List.length betas) with (m + S (List.length betas - S m)) by lia.
  rewrite seq_app, for_each_app. cbn [running_term] in E.
  rewrite E, bind_Ok. cbn [Nat.add seq for_each].
  rewrite low_storage_stage_index_error; try assumption.
  - reflexivity.
  - unfold m. lia.
  - intros hp Hhp. rewrite (Sh hp Hhp). symmetry. exact Su.
Qed.

(** X11.  With [time_step = 0], [backward_forward_euler] and
    [crank_nicolson_rk2] both return [implicit_solve(u0, 0)]. *)
Theorem imex_zero_time_step (equation : ImplicitExplicitODE K)
  (u0 : pytree K) :
  imex_preserves_structure equation ->
  backward_forward_euler equation 0%K u0 = Ok (implicit_solve equation u0 0%K)
  /\ crank_nicolson_rk2 equation 0%K u0 = Ok (implicit_solve equation u0 0%K).
Proof.
  intros Hp. pose proof (imex_preserves_solve equation Hp) as HS.
  rewrite backward_forward_euler_eq, crank_nicolson_rk2_eq by exact Hp.
  destruct Hp as (HF & HG & _).
  unfold backward_forward_euler_formula, crank_nicolson_rk2_formula.
  rewrite Kmul_0_r, !smul_zero.
  repeat rewrite vadd_zeros_r by solve_structure.
  split; reflexivity.
Qed.

(** X12.  [crank_nicolson_rk3] and [crank_nicolson_rk4] always construct,
    and for an equation that keeps the structure of the state their steps
    never raise: they run the three, respectively five, low-storage stages
    on their coefficient tables. *)
Theorem crank_nicolson_presets_closed_form (equation : ImplicitExplicitODE K)
  (dt : K) (u : pytree K) :
  imex_preserves_structure equation ->
  (exists step,
      crank_nicolson_rk3 equation dt = Ok step
      /\ step u
         = Ok (low_storage_formula
                 [0%K; frac 1 3; frac 3 4; 1%K]
                 [0%K; frac (-5) 9; frac (-153) 128]
                 [frac 1 3; frac 15 16; frac 8 15] equation dt u))
  /\ (exists step,
         crank_nicolson_rk4 equation dt = Ok step
         /\ step u
            = Ok (low_storage_formula
                    [0%K; frac 1496590219993 10000000000000;
                     frac 3704009573644 10000000000000;
                     frac 6222557631345 10000000000000;
                     frac 9582821306748 10000000000000; 1%K]
                    [0%K; frac (-4178904745) 10000000000;
                     frac (-1192151694643) 1000000000000;
                     frac (-1697784692471) 1000000000000;
                     frac (-1514183444257) 1000000000000]
                    [frac 1496590219993 10000000000000;
                     frac 3792103129999 10000000000000;
                     frac 8229550293869 10000000000000;
                     frac 6994504559488 10000000000000;
                     frac 1530572479681 10000000000000] equation dt u)).
Proof.
  intros Hp. split; eexists; (split; [reflexivity|]);
    apply low_storage_step_fn_eq; try exact Hp; cbn [List.length]; lia.
Qed.

End LowStorageErrors.

Section LinearCrankNicolson.
Context {K : Type} {SK : Scalar K}.

Lemma zip_with_map_self (op : K -> K -> K) (f : K -> K) (x : array K) :
  zip_with op x (map f x) = map (fun v => op v (f v)) x.
Proof. induction x as [|a x IH]; simpl; [reflexivity|]. now rewrite IH. Qed.

Lemma tree_zip_map_self (op : K -> K -> K) (f : K -> K) (t : pytree K) :
  tree_zip op t (tree_map (map f) t) = tree_map (map (fun v => op v (f v))) t.
Proof.
  induction t as [x|fs IH] using pytree_induction; simpl.
  - now rewrite zip_with_map_self.
  - f_equal. induction IH as [|[n c] fs Hc _ IHfs]; simpl; [reflexivity|].
    simpl in Hc. now rewrite Hc, IHfs.
Qed.

Lemma tree_map_map_compose (f g : K -> K) (t : pytree K) :
  tree_map (map f) (tree_map (map g) t) = tree_map (map (fun v => f (g v))) t.
Proof.
  rewrite tree_map_compose. apply tree_map_ext. intros x. apply map_map.
Qed.

Lemma zeros_like_same_structure (s t : pytree K) :
  structure s = structure t -> zeros_like s = zeros_like t.
Proof.
  unfold zeros_like. revert t.
  induction s as [x|fs IH] using pytree_induction;
    intros [y|gs] H; simpl in H; try discriminate.
  - injection H as H. simpl. f_equal.
    revert y H. induction x as [|a x IHx]; intros [|b y] H; simpl in H;
      try discriminate; [reflexivity|].
    injection H as H. simpl. now rewrite (IHx y H).
  - injection H as H. simpl. f_equal.
    revert gs H. induction IH as [|[n c] fs Hc _ IHfs]; intros [|[m d] gs] H;
      simpl in H; try discriminate; [reflexivity|].
    injection H as Hn Hcd Hrest. simpl. simpl in Hc.
    now rewrite (Hc d Hcd), (IHfs gs Hrest), Hn.
Qed.

(** X13.  For a strictly linear equation ([explicit_terms = 0],
    [implicit_terms(x) = lam * x], [implicit_solve(x, h) = x / (1 - h lam)])
    a step of [crank_nicolson_rk2] is the Crank-Nicolson iterate
    [(u + dt/2 * lam * u) / (1 - dt/2 * lam)], leaf by leaf. *)
Theorem crank_nicolson_rk2_linear (equation : ImplicitExplicitODE K)
  (lam dt : K) (u : pytree K) :
  (forall x, explicit_terms equation x = zeros_like x) ->
  (forall x, implicit_terms equation x = smul lam x) ->
  (forall x h, implicit_solve equation x h
               = tree_map (map (fun v => v / (1 - h * lam))%K) x) ->
  crank_nicolson_rk2 equation dt u
  = Ok (tree_map
          (map (fun v => (v + half * dt * (lam * v))
                         / (1 - half * dt * lam))%K) u).
Proof.
  intros HF HG HS.
  assert (Hp : imex_preserves_structure equation).
  { repeat split; intros x; rewrite ?HF, ?HG, ?HS.
    - apply structure_zeros_like.
    - apply structure_smul.
    - intros y. rewrite HS. apply structure_tree_map. intros z.
      apply length_map. }
  rewrite crank_nicolson_rk2_eq by exact Hp.
  unfold crank_nicolson_rk2_formula. f_equal.
  set (g := vadd u (smul (half * dt)%K (implicit_terms equation u))).
  assert (Sg : structure g = structure u).
  { unfold g. rewrite structure_vadd; [reflexivity|].
    now rewrite structure_smul, HG, structure_smul. }
  rewrite !HF, !smul_zeros_like.
  rewrite (vadd_zeros_r g u Sg).
  set (u1 := implicit_solve equation g (half * dt)%K).
  assert (Su1 : structure u1 = structure u).
  { unfold u1. destruct Hp as (_ & _ & Hs). rewrite (Hs _ g). exact Sg. }
  rewrite (vadd_zeros_r (zeros_like u1) u)
    by now rewrite structure_zeros_like.
  rewrite !smul_zeros_like.
  rewrite (vadd_zeros_r g u1) by congruence.
  rewrite HS. unfold g. rewrite HG. unfold smul, vadd.
  rewrite tree_map_map_compose, tree_zip_map_self, tree_map_map_compose.
  reflexivity.
Qed.

End LinearCrankNicolson.

Lemma imex_steps_closed_form_witness :
  backward_forward_euler (split_equation (K:=Qc)) (frac 1 10)
    (two_fields [1%K; frac 3 1] [frac 2 1])
  = Ok (backward_forward_euler_formula split_equation (frac 1 10)
          (two_fields [1%K; frac 3 1] [frac 2 1]))
  /\ crank_nicolson_rk2 (split_equation (K:=Qc)) (frac 1 10)
       (two_fields [1%K; frac 3 1] [frac 2 1])
     = Ok (crank_nicolson_rk2_formula split_equation (frac 1 10)
             (two_fields [1%K; frac 3 1] [frac 2 1])).
Proof.
  apply (imex_steps_closed_form (K:=Qc)). repeat split.
Defined.

Lemma low_storage_closed_form_witness :
  low_storage_step_fn [0%K; frac 1 3; frac 3 4; 1%K]
    [0%K; frac (-5) 9; frac (-153) 128] [frac 1 3; frac 15 16; frac 8 15]
    (split_equation (K:=Qc)) (frac 1 10) (two_fields [1%K; frac 3 1] [frac 2 1])
  = Ok (low_storage_formula [0%K; frac 1 3; frac 3 4; 1%K]
          [0%K; frac (-5) 9; frac (-153) 128] [frac 1 3; frac 15 16; frac 8 15]
          split_equation (frac 1 10) (two_fields [1%K; frac 3 1] [frac 2 1])).
Proof.
  apply (low_storage_closed_form (K:=Qc)).
  - repeat split.
  - cbn [List.length]. lia.
  - cbn [List.length]. lia.
  - reflexivity.
Defined.

Lemma low_storage_short_lists_raise_witness :
  low_storage_step_fn [0%K; frac 1 3; frac 3 4; 1%K]
    [0%K; frac (-5) 9; frac (-153) 128] [frac 1 3; frac 15 16]
    (split_equation (K:=Qc)) (frac 1 10) (two_fields [1%K; frac 3 1] [frac 2 1])
  = Raise IndexError.
Proof.
  apply (low_storage_short_lists_raise (K:=Qc) [0%K; frac 1 3; frac 3 4; 1%K]
           [0%K; frac (-5) 9; frac (-153) 128] [frac 1 3; frac 15 16]
           split_equation (frac 1 10)).
  - repeat split.
  - cbn [List.length]. lia.
  - left. cbn [List.length]. lia.
  - reflexivity.
Defined.

Lemma imex_zero_time_step_witness :
  backward_forward_euler (split_equation (K:=Qc)) 0%K
    (two_fields [1%K; frac 3 1] [frac 2 1])
  = Ok (implicit_solve split_equation (two_fields [1%K; frac 3 1] [frac 2 1])
          0%K)
  /\ crank_nicolson_rk2 (split_equation (K:=Qc)) 0%K
       (two_fields [1%K; frac 3 1] [frac 2 1])
     = Ok (implicit_solve split_equation
             (two_fields [1%K; frac 3 1] [frac 2 1]) 0%K).
Proof.
  apply (imex_zero_time_step (K:=Qc)). repeat split.
Defined.

Lemma crank_nicolson_presets_closed_form_witness :
  exists step,
    crank_nicolson_rk3 (split_equation (K:=Qc)) (frac 1 10) = Ok step
    /\ step (two_fields [1%K; frac 3 1] [frac 2 1])
       = Ok (low_storage_formula
               [0%K; frac 1 3; frac 3 4; 1%K]
               [0%K; frac (-5) 9; frac (-153) 128]
               [frac 1 3; frac 15 16; frac 8 15] split_equation (frac 1 10)
               (two_fields [1%K; frac 3 1] [frac 2 1])).
Proof.
  refine (proj1 (crank_nicolson_presets_closed_form (K:=Qc) split_equation
                   (frac 1 10) (two_fields [1%K; frac 3 1] [frac 2 1]) _)).
  split; [|split]; intros x; try intros y; reflexivity.
Defined.

Lemma crank_nicolson_rk2_linear_witness :
  crank_nicolson_rk2 (linear_equation (K:=Qc) (frac (-1) 2)) (frac 1 10)
    (two_fields [1%K; frac 3 1] [frac 2 1])
  = Ok (tree_map
          (map (fun v => (v + half * frac 1 10 * (frac (-1) 2 * v))
                         / (1 - half * frac 1 10 * frac (-1) 2))%K)
          (two_fields [1%K; frac 3 1] [frac 2 1])).
Proof.
  apply (crank_nicolson_rk2_linear (K:=Qc) (linear_equation (frac (-1) 2))
           (frac (-1) 2) (frac 1 10));
    intros; reflexivity.
Defined.

(** ** More on the Navier-Stokes equation object *)

Section EquationExtras.
Context {K : Type} {SK : Scalar K}.

Add Field Kfield_equation_extras : K_field.

Variable Grid : Type.
Variable rfft_mesh : Grid -> array K * array K.
Variable circular_filter_2d : Grid -> array K.
Variable vorticity_to_velocity : Grid -> array K -> array K * array K.
Variable irfftn : array K -> array K.
Variable rfftn : array K -> array K.
Variable kolmogorov_forcing_fn : Grid -> array K -> array K.
Variable pi : K.
Variable two_j : K.

Lemma apply_then_solve (L y : array K) (h : K) :
  List.length y = List.length L ->
  Forall (fun l => (1 - h * l)%K <> 0%K) L ->
  times (map (fun d => (1 / d)%K) (map (fun l => (1 - l)%K) (scale h L)))
    (backward_lhs y h (times L y))
  = y.
Proof.
  intros Hlen HL. revert y Hlen.
  induction HL as [|l L Hl _ IH]; intros [|v y] Hlen; simpl in Hlen;
    try discriminate; [reflexivity|].
  injection Hlen as Hlen. specialize (IH y Hlen).
  unfold backward_lhs, times, scale in *. cbn [map zip_with].
  f_equal; [|exact IH].
  field. exact Hl.
Qed.

(** X14.  [implicit_solve] undoes the backward operator: when
    [1 - h * linear_term] vanishes at no frequency,
    [implicit_solve(y - h * implicit_terms(y), h) = y]. *)
Theorem implicit_solve_inverts_backward_operator (self : NavierStokes2D Grid)
  (y : array K) (h : K) :
  List.length y = List.length (linear_term rfft_mesh pi two_j self) ->
  Forall (fun l => (1 - h * l)%K <> 0%K) (linear_term rfft_mesh pi two_j self) ->
  NS_implicit_solve rfft_mesh pi two_j self
    (backward_lhs y h (NS_implicit_terms rfft_mesh pi two_j self y)) h
  = y.
Proof.
  intros Hlen HL. unfold NS_implicit_solve, NS_implicit_terms.
  now apply apply_then_solve.
Qed.

Lemma times_plus (L x y : array K) :
  times L (plus x y) = plus (times L x) (times L y).
Proof.
  unfold times, plus. revert x y.
  induction L as [|l L IH]; intros [|a x] [|b y]; simpl; try reflexivity.
  rewrite IH. f_equal. ring.
Qed.

Lemma times_scale (L x : array K) (c : K) :
  times L (scale c x) = scale c (times L x).
Proof.
  unfold times, scale. revert x.
  induction L as [|l L IH]; intros [|a x]; simpl; try reflexivity.
  rewrite IH. f_equal. ring.
Qed.

(** X15.  [implicit_terms] and [implicit_solve] are linear in the state:
    they commute with the elementwise sum of two states and with
    multiplication by a scalar. *)
Theorem implicit_operators_are_linear (self : NavierStokes2D Grid)
  (x y : array K) (c h : K) :
  NS_implicit_terms rfft_mesh pi two_j self (plus x y)
  = plus (NS_implicit_terms rfft_mesh pi two_j self x)
      (NS_implicit_terms rfft_mesh pi two_j self y)
  /\ NS_implicit_terms rfft_mesh pi two_j self (scale c x)
     = scale c (NS_implicit_terms rfft_mesh pi two_j self x)
  /\ NS_implicit_solve rfft_mesh pi two_j self (plus x y) h
     = plus (NS_implicit_solve rfft_mesh pi two_j self x h)
         (NS_implicit_solve rfft_mesh pi two_j self y h)
  /\ NS_implicit_solve rfft_mesh pi two_j self (scale c x) h
     = scale c (NS_implicit_solve rfft_mesh pi two_j self x h).
Proof.
  unfold NS_implicit_terms, NS_implicit_solve.
  repeat split; first [apply times_plus | apply times_scale].
Qed.

Lemma inviscid_pointwise (L x : array K) (h : K) :
  List.length x = List.length L ->
  let lin := map (fun l => (0 * l - 0)%K) L in
  times lin x = map (fun _ => 0%K) x
  /\ times (map (fun d => (1 / d)%K) (map (fun l => (1 - l)%K) (scale h lin))) x
     = x.
Proof.
  intros Hlen. cbn zeta. revert x Hlen.
  induction L as [|l L IH]; intros [|v x] Hlen; simpl in Hlen;
    try discriminate; [split; reflexivity|].
  injection Hlen as Hlen. destruct (IH x Hlen) as [IH1 IH2].
  unfold times, scale in *. cbn [map zip_with]. split.
  - rewrite IH1. f_equal. ring.
  - rewrite IH2. f_equal.
    replace (1 - h * (0 * l - 0))%K with 1%K by ring.
    field. exact (F_1_neq_0 K_field).
Qed.

(** X16.  With zero viscosity and zero drag the implicit part vanishes:
    [implicit_terms] returns the zero state and [implicit_solve] returns its
    argument, for every step size. *)
Theorem inviscid_implicit_part_is_trivial (self : NavierStokes2D Grid)
  (x : array K) (h : K) :
  viscosity self = 0%K -> drag self = 0%K ->
  List.length x = List.length (linear_term rfft_mesh pi two_j self) ->
  NS_implicit_terms rfft_mesh pi two_j self x = map (fun _ => 0%K) x
  /\ NS_implicit_solve rfft_mesh pi two_j self x h = x.
Proof.
  intros Hnu Hd Hlen.
  unfold NS_implicit_terms, NS_implicit_solve, linear_term in *.
  rewrite Hnu, Hd in *. rewrite length_map in Hlen.
  now apply inviscid_pointwise.
Qed.

(** X17.  The [smooth] argument of [ForcedNavierStokes2D] has no effect on
    the explicit terms: for either value they are the filtered advection
    term plus the transform of the forcing, which is not filtered. *)
Theorem forced_explicit_terms_ignore_smooth (nu : K) (g : Grid) (s : bool)
  (w : array K) :
  let self := ForcedNavierStokes2D kolmogorov_forcing_fn nu g s in
  NS_explicit_terms rfft_mesh circular_filter_2d vorticity_to_velocity irfftn
    rfftn pi two_j self w
  = plus
      (times
         (advection_hat rfft_mesh vorticity_to_velocity irfftn rfftn pi two_j
            self w)
         (filter_ circular_filter_2d self))
      (rfftn (kolmogorov_forcing_fn g w))
  /\ NS_explicit_terms rfft_mesh circular_filter_2d vorticity_to_velocity
       irfftn rfftn pi two_j
       (ForcedNavierStokes2D kolmogorov_forcing_fn nu g true) w
     = NS_explicit_terms rfft_mesh circular_filter_2d vorticity_to_velocity
         irfftn rfftn pi two_j
         (ForcedNavierStokes2D kolmogorov_forcing_fn nu g false) w.
Proof. split; reflexivity. Qed.

End EquationExtras.

Lemma implicit_solve_inverts_backward_operator_witness :
  let self := one_mode (K:=Qc) (Some true) in
  NS_implicit_solve one_mode_mesh 1%K 1%K self
    (backward_lhs [frac 3 1] (frac 1 10)
       (NS_implicit_terms one_mode_mesh 1%K 1%K self [frac 3 1]))
    (frac 1 10)
  = [frac 3 1].
Proof.
  apply (implicit_solve_inverts_backward_operator (K:=Qc) unit one_mode_mesh
           1%K 1%K (one_mode (Some true)) [frac 3 1] (frac 1 10)).
  - reflexivity.
  - constructor; [|constructor].
    intros E. apply (proj2 (Keqb_eq _ _)) in E. vm_compute in E. discriminate.
Defined.

Lemma inviscid_implicit_part_is_trivial_witness :
  let self := {| viscosity := 0%K; grid := tt; drag := 0%K;
                 smooth := Some true; forcing_fn := None |} in
  NS_implicit_terms (K:=Qc) one_mode_mesh 1%K 1%K self [frac 3 1]
  = map (fun _ => 0%K) [frac 3 1]
  /\ NS_implicit_solve (K:=Qc) one_mode_mesh 1%K 1%K self [frac 3 1]
       (frac 1 10)
     = [frac 3 1].
Proof.
  apply (inviscid_implicit_part_is_trivial (K:=Qc) unit one_mode_mesh 1%K 1%K
           {| viscosity := 0%K; grid := tt; drag := 0%K;
              smooth := Some true; forcing_fn := None |}
           [frac 3 1] (frac 1 10)); reflexivity.
Defined.

(** ** More on the arithmetic wrapper *)

Section WrapperExtras.
Context {K : Type} {SK : Scalar K}.

Add Field Kfield_wrapper_extras : K_field.

Lemma vadd_comm (s t : pytree K) :
  structure s = structure t -> vadd s t = vadd t s.
Proof.
  unfold vadd. revert t.
  induction s as [x|fs IH] using pytree_induction;
    intros [y|gs] H; simpl in H; try discriminate.
  - injection H as H. simpl. f_equal.
    revert y H. induction x as [|a x IHx]; intros [|b y] H; simpl in H;
      try discriminate; [reflexivity|].
    injection H as H. simpl. rewrite (IHx y H). f_equal. ring.
  - injection H as H. simpl. f_equal.
    revert gs H. induction IH as [|[n c] fs Hc _ IHfs]; intros [|[m d] gs] H;
      simpl in H; try discriminate; [reflexivity|].
    injection H as Hn Hcd Hrest. simpl. simpl in Hc.
    now rewrite (Hc d Hcd), (IHfs gs Hrest), Hn.
Qed.

Lemma vadd_assoc (s t r : pytree K) :
  structure s = structure t -> structure t = structure r ->
  vadd (vadd s t) r = vadd s (vadd t r).
Proof.
  unfold vadd. revert t r.
  induction s as [x|fs IH] using pytree_induction;
    intros [y|gs] [z|hs] H1 H2; simpl in H1, H2; try discriminate.
  - injection H1 as H1. injection H2 as H2. simpl. f_equal.
    revert y z H1 H2.
    induction x as [|a x IHx]; intros [|b y] [|c z] H1 H2; simpl in H1, H2;
      try discriminate; [reflexivity|].
    injection H1 as H1. injection H2 as H2. simpl.
    rewrite (IHx y z H1 H2). f_equal. ring.
  - injection H1 as H1. injection H2 as H2. simpl. f_equal.
    revert gs hs H1 H2.
    induction IH as [|[n c] fs Hc _ IHfs];
      intros [|[m d] gs] [|[l e] hs] H1 H2; simpl in H1, H2;
      try discriminate; [reflexivity|].
    injection H1 as Hn Hcd Hrest. injection H2 as Hm Hde Hrest'.
    simpl. simpl in Hc.
    now rewrite (Hc d e Hcd Hde), (IHfs gs hs Hrest Hrest').
Qed.

Lemma smul_vadd (c : K) (s t : pytree K) :
  structure s = structure t ->
  smul c (vadd s t) = vadd (smul c s) (smul c t).
Proof.
  unfold vadd, smul. revert t.
  induction s as [x|fs IH] using pytree_induction;
    intros [y|gs] H; simpl in H; try discriminate.
  - injection H as H. simpl. f_equal.
    revert y H. induction x as [|a x IHx]; intros [|b y] H; simpl in H;
      try discriminate; [reflexivity|].
    injection H as H. simpl. rewrite (IHx y H). f_equal. ring.
  - injection H as H. simpl. f_equal.
    revert gs H. induction IH as [|[n c'] fs Hc _ IHfs]; intros [|[m d] gs] H;
      simpl in H; try discriminate; [reflexivity|].
    injection H as Hn Hcd Hrest. simpl. simpl in Hc.
    now rewrite (Hc d Hcd), (IHfs gs Hrest).
Qed.

End WrapperExtras.

Section WrapperLaws.
Context {K : Type} {SK : Scalar K}.

(** X18.  On wrapped states of one structure the wrapper's arithmetic obeys
    the vector-space laws the steppers rely on: addition is commutative and
    associative, and multiplication by a scalar distributes over it. *)
Theorem wrapper_vector_space_laws (s t r : pytree K) (c : K) :
  structure s = structure t -> structure t = structure r ->
  py_add (VWrap s) (VWrap t) = py_add (VWrap t) (VWrap s)
  /\ (x <- py_add (VWrap s) (VWrap t) ;; py_add x (VWrap r))
     = (y <- py_add (VWrap t) (VWrap r) ;; py_add (VWrap s) y)
  /\ (x <- py_add (VWrap s) (VWrap t) ;; py_mul (VNum c) x)
     = (a <- py_mul (VNum c) (VWrap s) ;;
        b <- py_mul (VNum c) (VWrap t) ;;
        py_add a b).
Proof.
  intros Hst Htr. repeat split.
  - rewrite !py_add_wrapped by congruence. now rewrite vadd_comm.
  - rewrite !py_add_wrapped by congruence. rewrite !bind_Ok.
    rewrite !py_add_wrapped by (rewrite ?structure_vadd; congruence).
    now rewrite vadd_assoc.
  - rewrite py_add_wrapped by congruence.
    rewrite !bind_Ok, !py_mul_scalar_wrapped, !bind_Ok.
    rewrite py_add_wrapped by (rewrite !structure_smul; congruence).
    now rewrite smul_vadd.
Qed.




End WrapperLaws.

Lemma wrapper_vector_space_laws_witness :
  py_add (VWrap (two_fields [1%K; frac 3 1] [frac 2 1]))
    (VWrap (two_fields (K:=Qc) [frac 1 2; 0%K] [1%K]))
  = py_add (VWrap (two_fields [frac 1 2; 0%K] [1%K]))
      (VWrap (two_fields [1%K; frac 3 1] [frac 2 1])).
Proof.
  refine (proj1 (wrapper_vector_space_laws (K:=Qc)
                   (two_fields [1%K; frac 3 1] [frac 2 1])
                   (two_fields [frac 1 2; 0%K] [1%K])
                   (two_fields [0%K; 0%K] [frac 5 1]) 1%K _ _));
    reflexivity.
Defined.

(** ** More on [_sum] and on the tableau *)

Section SumExtras.
Context {K : Type} {SK : Scalar K}.

Lemma fold_vadd_permutation (xs ys : list (pytree K)) :
  Permutation xs ys ->
  forall acc, Forall (fun t => structure t = structure acc) xs ->
    fold_left vadd xs acc = fold_left vadd ys acc.
Proof.
  induction 1 as [|x l l' Hperm IH|x y l|l l' l'' H1 IH1 H2 IH2];
    intros acc Hall.
  - reflexivity.
  - inversion Hall as [|? ? Hx Hl]; subst. simpl. apply IH.
    rewrite structure_vadd by congruence. exact Hl.
  - inversion Hall as [|? ? Hy Hl]; subst.
    inversion Hl as [|? ? Hx Hl']; subst. simpl. f_equal.
    rewrite !vadd_assoc by congruence.
    f_equal. apply vadd_comm. congruence.
  - rewrite IH1 by exact Hall. apply IH2.
    eapply Permutation_Forall; eassumption.
Qed.

(** X20.  [_sum] raises [ValueError] on an empty sequence; on wrapped states
    of one structure it does not depend on the order of its terms. *)
Theorem sum_is_order_independent (d : treedef) (xs ys : list (pytree K)) :
  Forall (fun t => structure t = d) xs ->
  Permutation xs ys ->
  _sum (K:=K) [] = Raise ValueError
  /\ _sum (map VWrap xs) = _sum (map VWrap ys).
Proof.
  intros Hall Hperm. split; [reflexivity|].
  destruct xs as [|z xs'] eqn:E.
  - apply Permutation_nil in Hperm. now subst.
  - rewrite <- E in *.
    assert (Hz : structure z = d) by (subst xs; now inversion Hall).
    assert (Hall' : Forall (fun t => structure t = structure z) xs).
    { eapply Forall_impl; [|exact Hall]. intros t Ht. simpl in Ht. congruence. }
    rewrite (sum_terms z xs Hall') by (subst xs; discriminate).
    rewrite (sum_terms z ys).
    + f_equal. f_equal. apply fold_vadd_permutation; [exact Hperm|].
      eapply Forall_impl; [|exact Hall']. intros t Ht. simpl in Ht.
      now rewrite structure_zeros_like.
    + eapply Permutation_Forall; eassumption.
    + intros ->. apply Permutation_sym, Permutation_nil in Hperm.
      subst xs. discriminate.
Qed.

Lemma getitem_lower_triangle_from (a : list (list K)) :
  forall i m,
    getitem (lower_triangle_from i a) m
    = (row <- getitem a m ;; Ok (firstn (i + m) row)).
Proof.
  induction a as [|row a IH]; intros i [|m]; try reflexivity.
  - cbn. now rewrite Nat.add_0_r.
  - cbn [lower_triangle_from]. unfold getitem. cbn [nth_error].
    fold (getitem (lower_triangle_from (S i) a) m). fold (getitem a m).
    rewrite IH. now rewrite Nat.add_succ_r.
Qed.

Lemma getitem_firstn {A : Type} (n : nat) (xs : list A) (j : nat) :
  j < n -> getitem (firstn n xs) j = getitem xs j.
Proof.
  revert xs j. induction n as [|n IH]; intros xs j Hj; [lia|].
  destruct xs as [|x xs]; [reflexivity|]. destruct j as [|j]; [reflexivity|].
  cbn [firstn]. unfold getitem. cbn [nth_error].
  apply (IH xs j). lia.
Qed.

Lemma genexp_ext {A B : Type} (js : list A) (f g : A -> result (option B)) :
  (forall j, In j js -> f j = g j) -> genexp js f = genexp js g.
Proof.
  induction js as [|j js IH]; intros H; simpl; [reflexivity|].
  rewrite (H j) by now left. rewrite IH; [reflexivity|].
  intros i Hi. apply H. now right.
Qed.

Lemma weighted_terms_firstn (c : result (list K)) (k : list (option (val K)))
  (n m : nat) :
  n <= m ->
  weighted_terms (row <- c ;; Ok (firstn m row)) k n = weighted_terms c k n.
Proof.
  intros Hnm. unfold weighted_terms, range. apply genexp_ext.
  intros j Hj. apply in_seq in Hj.
  destruct c as [row|e]; cbn [bind]; [|reflexivity].
  rewrite getitem_firstn by lia. reflexivity.
Qed.

Lemma rk_stage_lower_triangle (a : list (list K))
  (F P : val K -> result (val K)) (dt : K) (u0 : val K) (i : nat)
  (uk : list (option (val K)) * list (option (val K))) :
  rk_stage (lower_triangle a) F P dt u0 i uk = rk_stage a F P dt u0 i uk.
Proof.
  unfold rk_stage, lower_triangle. destruct uk as [u k].
  rewrite getitem_lower_triangle_from, weighted_terms_firstn by lia.
  reflexivity.
Qed.

Lemma lower_triangle_from_length (a : list (list K)) :
  forall i, List.length (lower_triangle_from i a) = List.length a.
Proof.
  induction a as [|row a IH]; intros i; simpl; [reflexivity|].
  now rewrite IH.
Qed.

Lemma rk_step_fn_lower_triangle (a : list (list K)) (b : list K)
  (equation : ExplicitNavierStokesODE K) (dt : K) (u : pytree K) :
  rk_step_fn (lower_triangle a) b equation dt u = rk_step_fn a b equation dt u.
Proof.
  unfold rk_step_fn, tree_math.vector_to_pytree_fun.
  f_equal.
  destruct (setitem (repeat None (List.length b)) 0 (Some (VWrap u)))
    as [us|e]; cbn [bind]; [|reflexivity].
  destruct (tree_math.pytree_to_vector_fun (rhs_explicit_terms equation)
              (VWrap u)) as [k0|e]; cbn [bind]; [|reflexivity].
  destruct (setitem (repeat None (List.length b)) 0 (Some k0)) as [ks|e];
    cbn [bind]; [|reflexivity].
  rewrite (for_each_ext (range2 1 (List.length b))
             (rk_stage (lower_triangle a)
                (tree_math.pytree_to_vector_fun (rhs_explicit_terms equation))
                (tree_math.pytree_to_vector_fun (pressure_projection equation))
                dt (VWrap u))
             (rk_stage a
                (tree_math.pytree_to_vector_fun (rhs_explicit_terms equation))
                (tree_math.pytree_to_vector_fun (pressure_projection equation))
                dt (VWrap u))); [reflexivity|].
  intros i s _. apply rk_stage_lower_triangle.
Qed.

(** X21.  A step reads only the part of [a] below the diagonal (the first
    [i] entries of row [i - 1]): tableaux that agree there are accepted or
    rejected alike, and their steppers return the same result, or raise the
    same exception, on every state. *)
Theorem rk_step_reads_lower_triangle (a a' : list (list K)) (b : list K)
  (equation : ExplicitNavierStokesODE K) (dt : K) :
  lower_triangle a = lower_triangle a' ->
  match navier_stokes_rk a b equation dt, navier_stokes_rk a' b equation dt
  with
  | Ok step, Ok step' => forall u, step u = step' u
  | Raise e, Raise e' => e = e'
  | _, _ => False
  end.
Proof.
  intros H. unfold navier_stokes_rk.
  assert (L : List.length a = List.length a').
  { unfold lower_triangle in H.
    rewrite <- (lower_triangle_from_length a 1), H.
    apply lower_triangle_from_length. }
  rewrite L. destruct (negb _); [reflexivity|].
  intros u. rewrite <- (rk_step_fn_lower_triangle a), H.
  apply rk_step_fn_lower_triangle.
Qed.

End SumExtras.

Lemma sum_is_order_independent_witness :
  _sum (K:=Qc) [] = Raise ValueError
  /\ _sum (map VWrap [two_fields [1%K; frac 3 1] [frac 2 1];
                      two_fields (K:=Qc) [frac 1 2; 0%K] [1%K]])
     = _sum (map VWrap [two_fields [frac 1 2; 0%K] [1%K];
                        two_fields [1%K; frac 3 1] [frac 2 1]]).
Proof.
  apply (sum_is_order_independent (K:=Qc)
           (structure (two_fields (K:=Qc) [1%K; frac 3 1] [frac 2 1]))).
  - repeat constructor.
  - apply perm_swap.
Defined.

Lemma rk_step_reads_lower_triangle_witness :
  match
    navier_stokes_rk [[1%K; frac 7 1]] [frac 1 2; frac 1 2]
      (growth_equation (K:=Qc)) (frac 1 10),
    navier_stokes_rk [[1%K]] [frac 1 2; frac 1 2]
      (growth_equation (K:=Qc)) (frac 1 10)
  with
  | Ok step, Ok step' => forall u, step u = step' u
  | Raise e, Raise e' => e = e'
  | _, _ => False
  end.
Proof.
  apply (rk_step_reads_lower_triangle (K:=Qc)). reflexivity.
Defined.
